(** * LinkMasterX: the move-link-revert engine of [main.py]

    The development embeds the engine functions of [main.py]
    ([load_history], [save_history], [move_item], [create_symlink],
    [remove_symlink], [validate_paths], [HistoryWindow.revert_selected],
    [SymlinkGUI.run_symlink_process]) over a model of what they call:

    - a file tree with regular files, directories and symbolic links, with
      the path functions of [os.path], [os.makedirs], [os.rename],
      [os.unlink], [shutil.move] and the [mklink] command on top of it;
    - the text that [json.dump] writes and [json.load] reads;
    - the dialogs and the history window of the front end, as a log of
      events and a record.

    Scope of the model.  A path is read from one root: the working directory
    of the process is the root, and a Windows drive is a name directly below
    it; a Windows path that is relative to a drive ([C:name], a drive with
    no separator after it) is read the same way, where [ntpath] splits the
    drive off first.  The name [..] is not interpreted.  Characters are the
    code points U+0000 to U+00FF.  The history file is held apart from the
    file tree: the paths handed to the engine are taken not to name it. *)

From Stdlib Require Import String Ascii List ZArith Lia Bool DecimalString.
From stdpp Require Import base option list strings gmap.

Set Default Proof Using "Type".
#[local] Set Warnings "-register-all".

(* ================================================================== *)
(** * Exceptions and results *)

(** The exceptions the engine raises or meets.  [OSError] stands for the
    operating-system errors other than [FileExistsError]
    ([FileNotFoundError], [NotADirectoryError], [PermissionError], ...);
    [ShutilError] is [shutil.Error]; [ValueError] covers
    [json.JSONDecodeError]; [PlainException] is a bare [Exception(msg)]. *)
Inductive exn :=
| NotImplementedError (msg : string)
| FileExistsError (msg : string)
| CalledProcessError (returncode : Z) (cmd output stderr : string)
| OSError (msg : string)
| ShutilError (msg : string)
| TypeError (msg : string)
| KeyError (msg : string)
| AttributeError (msg : string)
| ValueError (msg : string)
| PlainException (msg : string).

Inductive result (A : Type) :=
| Ok (a : A)
| Raise (e : exn).
Arguments Ok {A} a.
Arguments Raise {A} e.

#[global] Instance result_ret : MRet result := λ A a, Ok a.
#[global] Instance result_bind : MBind result := λ A B f m,
  match m with Ok a => f a | Raise e => Raise e end.

Definition is_Ok {A} (r : result A) : bool :=
  match r with Ok _ => true | Raise _ => false end.

(** [except OSError]: [shutil.Error] and [FileExistsError] are subclasses. *)
Definition is_OSError (e : exn) : bool :=
  match e with
  | OSError _ | FileExistsError _ | ShutilError _ => true
  | _ => false
  end.

Definition is_FileExistsError (e : exn) : bool :=
  match e with FileExistsError _ => true | _ => false end.

(** [str(e)]. *)
Definition str_exn (e : exn) : string :=
  match e with
  | NotImplementedError m | FileExistsError m | OSError m | ShutilError m
  | TypeError m | KeyError m | AttributeError m | ValueError m
  | PlainException m => m
  | CalledProcessError _ cmd _ _ =>
      "Command '" +:+ cmd +:+ "' returned non-zero exit status."
  end.

(* ================================================================== *)
(** * Strings *)

Module Str.

Definition mem (c : ascii) (chars : string) : bool :=
  existsb (Ascii.eqb c) (list_ascii_of_string chars).

(** [s.rstrip(chars)] on the reversed character list. *)
Fixpoint lstrip_list (chars : string) (l : list ascii) : list ascii :=
  match l with
  | c :: l' => if mem c chars then lstrip_list chars l' else l
  | [] => []
  end.

Definition rstrip (s chars : string) : string :=
  string_of_list_ascii
    (rev (lstrip_list chars (rev (list_ascii_of_string s)))).

(** The characters [str.strip()] removes, among U+0000..U+00FF. *)
Definition whitespace : string :=
  string_of_list_ascii
    (map ascii_of_nat [9; 10; 11; 12; 13; 28; 29; 30; 31; 32; 133; 160]).

Definition strip (s : string) : string :=
  rstrip (string_of_list_ascii
            (lstrip_list whitespace (list_ascii_of_string s))) whitespace.

Definition last_char (s : string) : option ascii :=
  last (list_ascii_of_string s).

Definition is_empty (s : string) : bool :=
  match s with EmptyString => true | _ => false end.

End Str.

(* ================================================================== *)
(** * The file tree *)

Inductive node :=
| File (data : string)
| Dir (entries : gmap string node)
| Link (dirlink : bool) (target : string).

(** What [os.lstat] tells of an entry: its type, not the entries below. *)
Inductive kind :=
| KFile (data : string)
| KDir
| KLink (dirlink : bool) (target : string).

Definition kind_of (n : node) : kind :=
  match n with
  | File d => KFile d
  | Dir _ => KDir
  | Link b t => KLink b t
  end.

(** A location: the names from the root down to an entry. *)
Abbreviation loc := (list string).

Fixpoint get (n : node) (p : loc) : option node :=
  match p with
  | [] => Some n
  | c :: p' =>
      match n with
      | Dir es => match es !! c with Some m => get m p' | None => None end
      | _ => None
      end
  end.

Definition look (root : node) (p : loc) : option kind :=
  kind_of <$> get root p.

(** Set the entry at [p] (new or replaced); the parent must be a directory. *)
Fixpoint put (n : node) (p : loc) (x : node) : option node :=
  match p with
  | [] => None
  | c :: p' =>
      match n with
      | Dir es =>
          match p' with
          | [] => Some (Dir (<[c := x]> es))
          | _ => m ← es !! c; m' ← put m p' x; Some (Dir (<[c := m']> es))
          end
      | _ => None
      end
  end.

(** Remove the entry at [p], with what is below it. *)
Fixpoint del (n : node) (p : loc) : option node :=
  match p with
  | [] => None
  | c :: p' =>
      match n with
      | Dir es =>
          match p' with
          | [] => _ ← es !! c; Some (Dir (delete c es))
          | _ => m ← es !! c; m' ← del m p'; Some (Dir (<[c := m']> es))
          end
      | _ => None
      end
  end.

(* ================================================================== *)
(** * Paths *)

Section Paths.

(** [win]: the host is Windows, whose [os.path] is [ntpath]; otherwise
    [posixpath]. *)
Variable win : bool.

Definition is_sep (c : ascii) : bool :=
  Ascii.eqb c "/" || (win && Ascii.eqb c "\").

(** [os.path.sep]. *)
Definition sep : string := if win then "\" else "/".

(** The fields between separators, empty ones included. *)
Fixpoint fields (s : string) : list string :=
  match s with
  | EmptyString => [EmptyString]
  | String c s' =>
      if is_sep c then EmptyString :: fields s'
      else match fields s' with
           | f :: fs => String c f :: fs
           | [] => [String c EmptyString]
           end
  end.

Definition is_name (f : string) : bool :=
  negb (String.eqb f "") && negb (String.eqb f ".").

(** The names a path goes through. *)
Definition names (s : string) : list string := List.filter is_name (fields s).

(** An absolute path starts over from the root: it begins with a
    separator or, on Windows, with a drive. *)
Definition is_abs (s : string) : bool :=
  match s with
  | String c (String d _) => is_sep c || (win && Ascii.eqb d ":")
  | String c EmptyString => is_sep c
  | EmptyString => false
  end.

(** [os.path.basename]: what follows the last separator. *)
Definition os_path_basename (s : string) : string :=
  List.last (fields s) "".

(** [os.path.join a b]: an absolute [b] replaces [a]; otherwise [b] is put
    after [a], with a separator between them unless [a] is empty or ends
    in one. *)
Definition os_path_join (a b : string) : string :=
  if is_abs b then b
  else match Str.last_char a with
       | None => b
       | Some c => if is_sep c then a +:+ b else a +:+ sep +:+ b
       end.

(** ** Resolution *)

(** The number of symbolic links one resolution follows at most. *)
Definition symloop_max : nat := 40.

(** Where a link's target starts from, and the names it goes through;
    [dir] is the directory of the link. *)
Definition start (dir : loc) (t : string) : option (loc * list string) :=
  if Str.is_empty t then None
  else Some (if is_abs t then [] else dir, names t).

(** Walk the names [rest] from the directory at [cur].  Links on the way
    are followed; the last name is followed when [follow] is set
    ([os.stat]) and taken as it is otherwise ([os.lstat]). *)
Fixpoint walk (fuel : nat) (root : node) (follow : bool)
    (cur : loc) (rest : list string) {struct fuel} : option loc :=
  (fix go (cur : loc) (rest : list string) {struct rest} : option loc :=
     match rest with
     | [] => Some cur
     | c :: rest' =>
         match look root (cur ++ [c]) with
         | None => None
         | Some KDir => go (cur ++ [c]) rest'
         | Some (KFile _) =>
             match rest' with [] => Some (cur ++ [c]) | _ => None end
         | Some (KLink _ t) =>
             match rest', follow with
             | [], false => Some (cur ++ [c])
             | _, _ =>
                 match fuel, start cur t with
                 | S f, Some (cur', ns) => walk f root follow cur' (ns ++ rest')
                 | _, _ => None
                 end
             end
         end
     end) cur rest.

(** The location a path names; the empty path names nothing. *)
Definition locate (root : node) (follow : bool) (s : string) : option loc :=
  if Str.is_empty s then None
  else walk symloop_max root follow [] (names s).

Definition os_stat (root : node) (s : string) : option kind :=
  l ← locate root true s; look root l.

Definition os_lstat (root : node) (s : string) : option kind :=
  l ← locate root false s; look root l.

Definition os_path_exists (root : node) (s : string) : bool :=
  bool_decide (is_Some (os_stat root s)).

Definition os_path_lexists (root : node) (s : string) : bool :=
  bool_decide (is_Some (os_lstat root s)).

Definition os_path_isdir (root : node) (s : string) : bool :=
  match os_stat root s with Some KDir => true | _ => false end.

Definition os_path_islink (root : node) (s : string) : bool :=
  match os_lstat root s with Some (KLink _ _) => true | _ => false end.

(** Where a new entry named by [s] goes: the directory its head resolves
    to, and its last name. *)
Definition unsnoc {A} (l : list A) : option (list A * A) :=
  match rev l with
  | [] => None
  | x :: r => Some (rev r, x)
  end.

Definition slot (root : node) (s : string) : option (loc * string) :=
  '(hd, n) ← unsnoc (names s);
  d ← walk symloop_max root true [] hd;
  match look root d with
  | Some KDir => Some (d, n)
  | _ => None
  end.

End Paths.

(* ================================================================== *)
(** * Operations of [os] and [shutil] *)

Section Os.

Variable win : bool.

Definition quoted (s : string) : string := "'" +:+ s +:+ "'".

Definition no_such (s : string) : exn :=
  OSError ("No such file or directory: " +:+ quoted s).

Definition file_exists (s : string) : exn :=
  FileExistsError ("File exists: " +:+ quoted s).

(** [os.unlink]: removes a file or a link, never what a link points to. *)
Definition os_unlink (root : node) (s : string) : result node :=
  match locate win root false s with
  | None => Raise (no_such s)
  | Some l =>
      match look root l with
      | Some KDir => Raise (OSError ("Is a directory: " +:+ quoted s))
      | Some _ =>
          match del root l with
          | Some root' => Ok root'
          | None => Raise (no_such s)
          end
      | None => Raise (no_such s)
      end
  end.

(** [os.mkdir] of the path with names [ns], written [s] in messages. *)
Definition mkdir_names (root : node) (ns : list string) (s : string)
    : result node :=
  match unsnoc ns with
  | None => Raise (file_exists s)
  | Some (hd, n) =>
      match walk win symloop_max root true [] hd with
      | None => Raise (no_such s)
      | Some d =>
          match look root (d ++ [n]) with
          | Some _ => Raise (file_exists s)
          | None =>
              match put root (d ++ [n]) (Dir ∅) with
              | Some root' => Ok root'
              | None => Raise (OSError ("Not a directory: " +:+ quoted s))
              end
          end
      end
  end.

Definition isdir_names (root : node) (ns : list string) : bool :=
  match walk win symloop_max root true [] ns with
  | Some l => match look root l with Some KDir => true | _ => false end
  | None => false
  end.

Definition exists_names (root : node) (ns : list string) : bool :=
  match walk win symloop_max root true [] ns with
  | Some l => bool_decide (is_Some (look root l))
  | None => false
  end.

(** [os.makedirs(s, exist_ok=True)], going up from the shortest head:
    a head that exists is left alone, a missing one is made, and a
    [FileExistsError] on the way is passed over as [os.makedirs] does;
    at the last name an error stands unless the path is a directory. *)
Fixpoint makedirs_from (root : node) (made rest : list string) (s : string)
    : result node :=
  match rest with
  | [] => Ok root
  | c :: rest' =>
      let p := made ++ [c] in
      match rest' with
      | [] =>
          match mkdir_names root p s with
          | Ok root' => Ok root'
          | Raise e => if isdir_names root p then Ok root else Raise e
          end
      | _ =>
          if exists_names root p then makedirs_from root p rest' s
          else match mkdir_names root p s with
               | Ok root' => makedirs_from root' p rest' s
               | Raise e =>
                   if is_FileExistsError e then makedirs_from root p rest' s
                   else Raise e
               end
      end
  end.

Definition os_makedirs (root : node) (s : string) : result node :=
  if Str.is_empty s then Raise (no_such s)
  else makedirs_from root [] (names win s) s.

(** Take the entry at [a] out and set it at [b]. *)
Definition move_entry (root : node) (a b : loc) : option node :=
  x ← get root a; r ← del root a; put r b x.

Definition is_empty_dir (root : node) (l : loc) : bool :=
  match get root l with
  | Some (Dir es) => bool_decide (es = ∅)
  | _ => false
  end.

(** [os.rename]: the entry itself is renamed, a link is not followed.
    On Windows an occupied destination is refused; elsewhere a file
    replaces a file or a link, and a directory an empty directory. *)
Definition os_rename (root : node) (src dst : string) : result node :=
  match locate win root false src, slot win root dst with
  | Some a, Some (d, n) =>
      let b := d ++ [n] in
      match look root a with
      | None => Raise (no_such src)
      | Some ka =>
          if bool_decide (a = b) then Ok root
          else if bool_decide (a `prefix_of` b) then
            Raise (OSError ("Invalid argument: " +:+ quoted dst))
          else
            let go := match move_entry root a b with
                      | Some root' => Ok root'
                      | None => Raise (no_such src)
                      end in
            match look root b with
            | None => go
            | Some kb =>
                if win then Raise (file_exists dst)
                else match ka, kb with
                     | KDir, KDir =>
                         if is_empty_dir root b then go
                         else Raise (OSError ("Directory not empty: "
                                                +:+ quoted dst))
                     | KDir, _ =>
                         Raise (OSError ("Not a directory: " +:+ quoted dst))
                     | _, KDir =>
                         Raise (OSError ("Is a directory: " +:+ quoted dst))
                     | _, _ => go
                     end
            end
      end
  | _, _ => Raise (no_such src)
  end.

(** [os.symlink target link]: on Windows the link takes the type of the
    target when the target is there. *)
Definition os_symlink (root : node) (target link : string) : result node :=
  match slot win root link with
  | None => Raise (no_such link)
  | Some (d, n) =>
      match look root (d ++ [n]) with
      | Some _ => Raise (file_exists link)
      | None =>
          let isd := match start win d target with
                     | Some (c, ns) =>
                         match walk win symloop_max root true c ns with
                         | Some l =>
                             match look root l with
                             | Some KDir => true
                             | _ => false
                             end
                         | None => false
                         end
                     | None => false
                     end in
          match put root (d ++ [n]) (Link (win && isd) target) with
          | Some root' => Ok root'
          | None => Raise (no_such link)
          end
      end
  end.

(** [shutil.copy2] of a regular file onto a free name or over a file;
    a destination that is a link left without target is refused here
    (there [open] would make the target). *)
Definition shutil_copy2 (root : node) (src dst : string) : result node :=
  match os_stat win root src with
  | Some (KFile data) =>
      match locate win root true dst with
      | Some l =>
          if bool_decide (locate win root true src = Some l) then
            Raise (ShutilError (quoted src +:+ " and " +:+ quoted dst
                                  +:+ " are the same file"))
          else match look root l with
               | Some (KFile _) =>
                   match put root l (File data) with
                   | Some root' => Ok root'
                   | None => Raise (no_such dst)
                   end
               | _ => Raise (OSError ("Is a directory: " +:+ quoted dst))
               end
      | None =>
          match slot win root dst with
          | Some (d, n) =>
              match look root (d ++ [n]) with
              | None =>
                  match put root (d ++ [n]) (File data) with
                  | Some root' => Ok root'
                  | None => Raise (no_such dst)
                  end
              | Some _ => Raise (no_such dst)
              end
          | None => Raise (no_such dst)
          end
      end
  | Some _ => Raise (OSError ("Is a directory: " +:+ quoted src))
  | None => Raise (no_such src)
  end.

(** [shutil.copytree(src, dst, symlinks=True)] then [shutil.rmtree(src)]:
    the destination must be free, its missing parents are made.  A
    destination that lies below the source through a link is refused. *)
Definition copytree_rmtree (root : node) (src dst : string) : result node :=
  match locate win root true src with
  | None => Raise (no_such src)
  | Some a =>
      if os_path_lexists win root dst then Raise (file_exists dst)
      else
        r ← os_makedirs root dst;
        match slot win r dst with
        | Some (d, n) =>
            if bool_decide (a `prefix_of` d ++ [n]) then
              Raise (OSError ("Invalid argument: " +:+ quoted dst))
            else match move_entry r a (d ++ [n]) with
                 | Some root' => Ok root'
                 | None => Raise (no_such src)
                 end
        | None => Raise (no_such dst)
        end
  end.

(** [shutil._basename]. *)
Definition shutil_basename (s : string) : string :=
  os_path_basename win (Str.rstrip s (if win then "\/" else "/")).

Definition samefile (root : node) (a b : string) : bool :=
  match locate win root true a, locate win root true b with
  | Some la, Some lb => bool_decide (la = lb)
  | _, _ => false
  end.

(** [shutil._destinsrc]: a test on the written paths. *)
Definition destinsrc (src dst : string) : bool :=
  bool_decide (names win src `prefix_of` names win dst).

(** [shutil.move]; its return value, which the engine does not use, is
    left out.  When the rename is refused the item is copied and the
    source removed. *)
Definition shutil_move (root : node) (src dst : string) : result node :=
  let finish (real_dst : string) : result node :=
    match os_rename root src real_dst with
    | Ok root' => Ok root'
    | Raise e =>
        if negb (is_OSError e) then Raise e
        else if os_path_islink win root src then
          match os_lstat win root src with
          | Some (KLink _ linkto) =>
              r ← os_symlink root linkto real_dst; os_unlink r src
          | _ => Raise (no_such src)
          end
        else if os_path_isdir win root src then
          if destinsrc src dst then
            Raise (ShutilError ("Cannot move a directory " +:+ quoted src
                                  +:+ " into itself " +:+ quoted dst +:+ "."))
          else copytree_rmtree root src real_dst
        else
          r ← shutil_copy2 root src real_dst; os_unlink r src
    end in
  if os_path_isdir win root dst then
    if samefile root src dst && negb (os_path_islink win root src) then
      os_rename root src dst
    else
      let real_dst := os_path_join win dst (shutil_basename src) in
      if os_path_exists win root real_dst then
        Raise (ShutilError ("Destination path " +:+ quoted real_dst
                              +:+ " already exists"))
      else finish real_dst
  else finish dst.

End Os.

(* ================================================================== *)
(** * JSON text: [json.dump] and [json.load] *)

Module Json.

(** What [json.load] returns.  An object is a [dict]: its keys are
    distinct and kept in the order they came.  A float is kept as the
    text it was read from. *)
Inductive json :=
| JNull
| JBool (b : bool)
| JInt (z : Z)
| JFloat (lexeme : string)
| JStr (s : string)
| JArr (items : list json)
| JObj (members : list (string * json)).

Definition dq : ascii := "034"%char.
Definition bs : ascii := "\"%char.

Definition str1 (c : ascii) : string := String c EmptyString.

(** ** Writing *)

Definition hex_digit (n : N) : ascii :=
  match n with
  | 0%N => "0" | 1%N => "1" | 2%N => "2" | 3%N => "3" | 4%N => "4"
  | 5%N => "5" | 6%N => "6" | 7%N => "7" | 8%N => "8" | 9%N => "9"
  | 10%N => "a" | 11%N => "b" | 12%N => "c" | 13%N => "d" | 14%N => "e"
  | _ => "f"
  end%char.

(** One character under [ensure_ascii]: the printable ASCII characters
    stand for themselves, the others are escaped. *)
Definition encode_char (c : ascii) : string :=
  if Ascii.eqb c dq then String bs (str1 dq)
  else if Ascii.eqb c bs then String bs (str1 bs)
  else if Ascii.eqb c "010" then "\n"
  else if Ascii.eqb c "013" then "\r"
  else if Ascii.eqb c "009" then "\t"
  else if Ascii.eqb c "008" then "\b"
  else if Ascii.eqb c "012" then "\f"
  else
    let n := N_of_ascii c in
    if ((32 <=? n) && (n <=? 126))%N then str1 c
    else "\u00" +:+ String (hex_digit (n / 16)) (str1 (hex_digit (n mod 16))).

Fixpoint encode_body (s : string) : string :=
  match s with
  | EmptyString => EmptyString
  | String c s' => encode_char c +:+ encode_body s'
  end.

Definition encode_str (s : string) : string :=
  String dq (encode_body s +:+ str1 dq).

(** A new line and the indentation of [level], two spaces a level. *)
Definition nl (level : nat) : string :=
  String "010" (string_of_list_ascii (repeat " "%char (2 * level))).

Fixpoint join (sp : string) (l : list string) : string :=
  match l with
  | [] => ""
  | [x] => x
  | x :: l' => x +:+ sp +:+ join sp l'
  end.

Definition decimal (z : Z) : string := NilZero.string_of_int (Z.to_int z).

(** [json.dumps(v, indent=2)] of a value nested [level] deep. *)
Fixpoint dump (level : nat) (v : json) {struct v} : string :=
  match v with
  | JNull => "null"
  | JBool true => "true"
  | JBool false => "false"
  | JInt z => decimal z
  | JFloat x => x
  | JStr s => encode_str s
  | JArr [] => "[]"
  | JArr items =>
      "[" +:+ nl (S level)
      +:+ join ("," +:+ nl (S level)) (List.map (dump (S level)) items)
      +:+ nl level +:+ "]"
  | JObj [] => "{}"
  | JObj members =>
      "{" +:+ nl (S level)
      +:+ join ("," +:+ nl (S level))
            (List.map (λ kv, encode_str (fst kv) +:+ ": "
                               +:+ dump (S level) (snd kv)) members)
      +:+ nl level +:+ "}"
  end.

Definition dumps (v : json) : string := dump 0 v.

(** ** Reading *)

Definition is_ws (c : ascii) : bool :=
  Ascii.eqb c " " || Ascii.eqb c "009" || Ascii.eqb c "010"
  || Ascii.eqb c "013".

Fixpoint skip_ws (s : string) : string :=
  match s with
  | String c s' => if is_ws c then skip_ws s' else s
  | EmptyString => EmptyString
  end.

Definition hex_val (c : ascii) : option N :=
  let n := N_of_ascii c in
  if ((48 <=? n) && (n <=? 57))%N then Some (n - 48)%N
  else if ((97 <=? n) && (n <=? 102))%N then Some (n - 87)%N
  else if ((65 <=? n) && (n <=? 70))%N then Some (n - 55)%N
  else None.

Definition unescape (c : ascii) : option ascii :=
  if Ascii.eqb c dq then Some dq
  else if Ascii.eqb c bs then Some bs
  else if Ascii.eqb c "/" then Some "/"%char
  else if Ascii.eqb c "b" then Some "008"%char
  else if Ascii.eqb c "f" then Some "012"%char
  else if Ascii.eqb c "n" then Some "010"%char
  else if Ascii.eqb c "r" then Some "013"%char
  else if Ascii.eqb c "t" then Some "009"%char
  else None.

(** The character a [\uXXXX] escape stands for; a code point above
    U+00FF has no character here and the text is not read. *)
Definition unicode_escape (h1 h2 h3 h4 : ascii) : option ascii :=
  a ← hex_val h1; b ← hex_val h2; c ← hex_val h3; d ← hex_val h4;
  let n := (((a * 16 + b) * 16 + c) * 16 + d)%N in
  if (n <? 256)%N then Some (ascii_of_N n) else None.

(** [scanstring], strict: from after the opening quote to after the
    closing one. *)
Fixpoint scanstring (s : string) : option (string * string) :=
  match s with
  | EmptyString => None
  | String c r =>
      if Ascii.eqb c dq then Some (EmptyString, r)
      else if Ascii.eqb c bs then
        match r with
        | String "u" (String h1 (String h2 (String h3 (String h4 r')))) =>
            c' ← unicode_escape h1 h2 h3 h4;
            '(str, rest) ← scanstring r';
            Some (String c' str, rest)
        | String e r' =>
            c' ← unescape e;
            '(str, rest) ← scanstring r';
            Some (String c' str, rest)
        | EmptyString => None
        end
      else if (N_of_ascii c <? 32)%N then None
      else '(str, rest) ← scanstring r; Some (String c str, rest)
  end.

Definition is_digit (c : ascii) : bool :=
  ((48 <=? N_of_ascii c) && (N_of_ascii c <=? 57))%N.

Fixpoint take_digits (s : string) : string * string :=
  match s with
  | String c s' =>
      if is_digit c then
        let '(ds, r) := take_digits s' in (String c ds, r)
      else (EmptyString, s)
  | EmptyString => (EmptyString, EmptyString)
  end.

(** An optional sign, then [0] or a digit from 1 to 9 and more digits. *)
Definition match_int (s : string) : option (string * string) :=
  let '(sign, r) := match s with
                    | String "-" r => ("-", r)
                    | _ => ("", s)
                    end in
  match r with
  | String c r' =>
      if Ascii.eqb c "0" then Some (sign +:+ "0", r')
      else if is_digit c then
        let '(ds, r'') := take_digits r' in Some (sign +:+ String c ds, r'')
      else None
  | EmptyString => None
  end.

(** The fraction, if any: a point and at least one digit. *)
Definition match_frac (s : string) : string * string :=
  match s with
  | String "." r =>
      let '(ds, r') := take_digits r in
      if Str.is_empty ds then (EmptyString, s) else ("." +:+ ds, r')
  | _ => (EmptyString, s)
  end.

(** The exponent, if any: [e] or [E], an optional sign, digits. *)
Definition match_exp (s : string) : string * string :=
  match s with
  | String e r =>
      if Ascii.eqb e "e" || Ascii.eqb e "E" then
        let '(sign, r1) := match r with
                           | String "+" r1 => ("+", r1)
                           | String "-" r1 => ("-", r1)
                           | _ => ("", r)
                           end in
        let '(ds, r2) := take_digits r1 in
        if Str.is_empty ds then (EmptyString, s)
        else (String e (sign +:+ ds), r2)
      else (EmptyString, s)
  | EmptyString => (EmptyString, s)
  end.

Definition match_number (s : string) : option (json * string) :=
  '(i, r) ← match_int s;
  let '(f, r1) := match_frac r in
  let '(e, r2) := match_exp r1 in
  if Str.is_empty f && Str.is_empty e then
    d ← NilZero.int_of_string i; Some (JInt (Z.of_int d), r2)
  else Some (JFloat (i +:+ f +:+ e), r2).

Fixpoint strip_prefix (p s : string) : option string :=
  match p, s with
  | EmptyString, _ => Some s
  | String a p', String b s' =>
      if Ascii.eqb a b then strip_prefix p' s' else None
  | _, _ => None
  end.

Definition literal (s : string) : option (json * string) :=
  match strip_prefix "null" s with
  | Some r => Some (JNull, r)
  | None =>
  match strip_prefix "true" s with
  | Some r => Some (JBool true, r)
  | None =>
  match strip_prefix "false" s with
  | Some r => Some (JBool false, r)
  | None =>
  match match_number s with
  | Some x => Some x
  | None =>
  match strip_prefix "NaN" s with
  | Some r => Some (JFloat "NaN", r)
  | None =>
  match strip_prefix "Infinity" s with
  | Some r => Some (JFloat "Infinity", r)
  | None =>
  match strip_prefix "-Infinity" s with
  | Some r => Some (JFloat "-Infinity", r)
  | None => None
  end end end end end end end.

(** [dict(pairs)]: a repeated key keeps its place and takes the last
    value. *)
Fixpoint dict_set (k : string) (v : json) (d : list (string * json))
    : list (string * json) :=
  match d with
  | [] => [(k, v)]
  | (k', v') :: d' =>
      if String.eqb k k' then (k, v) :: d' else (k', v') :: dict_set k v d'
  end.

Definition dict_of (pairs : list (string * json)) : list (string * json) :=
  fold_left (λ d kv, dict_set (fst kv) (snd kv) d) pairs [].

(** The scanner.  [fuel] bounds the number of values, items and members
    read; the length of the text is enough. *)
Fixpoint scan_once (fuel : nat) (s : string) {struct fuel}
    : option (json * string) :=
  match fuel with
  | O => None
  | S f =>
      match s with
      | String c r =>
          if Ascii.eqb c dq then
            '(k, r') ← scanstring r; Some (JStr k, r')
          else if Ascii.eqb c "{" then
            match skip_ws r with
            | String c' r' =>
                if Ascii.eqb c' "}" then Some (JObj [], r')
                else if Ascii.eqb c' dq then scan_members f r' []
                else None
            | EmptyString => None
            end
          else if Ascii.eqb c "[" then
            match skip_ws r with
            | String c' r' =>
                if Ascii.eqb c' "]" then Some (JArr [], r')
                else scan_items f (String c' r') []
            | EmptyString => None
            end
          else literal s
      | EmptyString => None
      end
  end
(** The items of an array, from the start of an item. *)
with scan_items (fuel : nat) (s : string) (acc : list json) {struct fuel}
    : option (json * string) :=
  match fuel with
  | O => None
  | S f =>
      '(v, r) ← scan_once f s;
      match skip_ws r with
      | String c r' =>
          if Ascii.eqb c "]" then Some (JArr (rev (v :: acc)), r')
          else if Ascii.eqb c "," then scan_items f (skip_ws r') (v :: acc)
          else None
      | EmptyString => None
      end
  end
(** The members of an object, from after the opening quote of a key. *)
with scan_members (fuel : nat) (s : string) (acc : list (string * json))
    {struct fuel} : option (json * string) :=
  match fuel with
  | O => None
  | S f =>
      '(k, r) ← scanstring s;
      match skip_ws r with
      | String c r1 =>
          if Ascii.eqb c ":" then
            '(v, r2) ← scan_once f (skip_ws r1);
            match skip_ws r2 with
            | String c' r3 =>
                if Ascii.eqb c' "}" then
                  Some (JObj (dict_of (rev ((k, v) :: acc))), r3)
                else if Ascii.eqb c' "," then
                  match skip_ws r3 with
                  | String c'' r4 =>
                      if Ascii.eqb c'' dq
                      then scan_members f r4 ((k, v) :: acc)
                      else None
                  | EmptyString => None
                  end
                else None
            | EmptyString => None
            end
          else None
      | EmptyString => None
      end
  end.

(** [json.loads]: one value, white space around it, nothing else. *)
Definition loads (s : string) : option json :=
  match scan_once (S (String.length s)) (skip_ws s) with
  | Some (v, r) => if Str.is_empty (skip_ws r) then Some v else None
  | None => None
  end.

End Json.
Export Json(json(..)).

(* ================================================================== *)
(** * The world the engine runs in *)

(** The state of the history file [symlink_history.json]: not there,
    there but not to be opened (a directory, or access denied), or there
    with a text. *)
Inductive store :=
| Absent
| Blocked
| Content (text : string).

(** What the front end shows: the dialogs of [messagebox] and the text of
    the status label. *)
Inductive ui_event :=
| ShowError (title msg : string)
| ShowInfo (title msg : string)
| Status (text : string).

Record world := World {
  system : string;            (** [platform.system()] *)
  privileged : bool;          (** the process may create symbolic links *)
  tree : gmap string node;    (** the entries of the root directory *)
  history_file : store;       (** [HISTORY_FILE] *)
  ui : list ui_event;         (** what was shown, oldest first *)
}.

Definition HISTORY_FILE : string := "symlink_history.json".

Definition windows (w : world) : bool := String.eqb (system w) "Windows".

(** The file tree: the root is a directory. *)
Definition fs (w : world) : node := Dir (tree w).

Definition set_fs (w : world) (r : node) : world :=
  match r with
  | Dir es => World (system w) (privileged w) es (history_file w) (ui w)
  | _ => w
  end.

Definition set_history_file (w : world) (st : store) : world :=
  World (system w) (privileged w) (tree w) st (ui w).

Definition add_ui (w : world) (e : ui_event) : world :=
  World (system w) (privileged w) (tree w) (history_file w) (ui w ++ [e]).

(** ** Computations: a state and a result or an exception *)

Definition M (St A : Type) : Type := St → result A * St.

Definition ret {St A} (a : A) : M St A := λ s, (Ok a, s).

Definition bind {St A B} (m : M St A) (f : A → M St B) : M St B := λ s,
  match m s with
  | (Ok a, s') => f a s'
  | (Raise e, s') => (Raise e, s')
  end.

Notation "'let*' x ':=' m 'in' k" := (bind m (λ x, k))
  (at level 10, x name, m at level 100, k at level 200, only parsing).
Notation "m ;; k" := (bind m (λ _, k))
  (at level 100, k at level 200, right associativity, only parsing).

Definition raise {St A} (e : exn) : M St A := λ s, (Raise e, s).

(** [try: m  except <class> as e: h e], for the classes [catches] holds of. *)
Definition try_except {St A} (m : M St A) (catches : exn → bool)
    (h : exn → M St A) : M St A := λ s,
  match m s with
  | (Ok a, s') => (Ok a, s')
  | (Raise e, s') => if catches e then h e s' else (Raise e, s')
  end.

Definition reads {A} (f : world → A) : M world A := λ w, (Ok (f w), w).

(** An operation on the file tree, run in the world. *)
Definition on_fs (f : bool → node → result node) : M world () := λ w,
  match f (windows w) (fs w) with
  | Ok r => (Ok (), set_fs w r)
  | Raise e => (Raise e, w)
  end.

Definition showerror (title msg : string) : M world () := λ w,
  (Ok (), add_ui w (ShowError title msg)).

Definition showinfo (title msg : string) : M world () := λ w,
  (Ok (), add_ui w (ShowInfo title msg)).

Definition status_label (text : string) : M world () := λ w,
  (Ok (), add_ui w (Status text)).

(** ** The command [mklink] *)

Module Cmd.

Definition dq : string := Json.str1 Json.dq.

Fixpoint until_quote (s : string) : option (string * string) :=
  match s with
  | EmptyString => None
  | String c r =>
      if Ascii.eqb c Json.dq then Some (EmptyString, r)
      else '(a, r') ← until_quote r; Some (String c a, r')
  end.

(** How the shell reads [mklink [/d] "link" "target"]; the expansion of
    environment variables is not modelled. *)
Definition parse (cmd : string) : option (bool * string * string) :=
  r ← Json.strip_prefix "mklink " cmd;
  let '(d, r1) := match Json.strip_prefix "/d " r with
                  | Some r1 => (true, r1)
                  | None => (false, r)
                  end in
  r2 ← Json.strip_prefix dq r1;
  '(link, r3) ← until_quote r2;
  r4 ← Json.strip_prefix (" " +:+ dq) r3;
  '(target, r5) ← until_quote r4;
  if Str.is_empty r5 then Some (d, link, target) else None.

(** What [subprocess.run] gives back. *)
Record completed := Completed {
  returncode : Z;
  stdout : string;
  stderr : string;
}.

(** [subprocess.run(cmd, shell=True, capture_output=True, text=True)] on
    Windows, for the [mklink] commands: the link is made when the process
    may make links, the link path is free and its directory is there. *)
Definition subprocess_run (cmd : string) : M world completed := λ w,
  match parse cmd with
  | None =>
      (Ok (Completed 1 "" "The syntax of the command is incorrect."), w)
  | Some (d, link, target) =>
      if negb (privileged w) then
        (Ok (Completed 1 ""
               "You do not have sufficient privilege to perform this operation."),
         w)
      else
        match slot true (fs w) link with
        | None =>
            (Ok (Completed 1 "" "The system cannot find the path specified."),
             w)
        | Some (dir, n) =>
            match look (fs w) (dir ++ [n]),
                  put (fs w) (dir ++ [n]) (Link d target) with
            | None, Some r =>
                (Ok (Completed 0
                       ("symbolic link created for " +:+ link +:+ " <<===>> "
                          +:+ target) ""),
                 set_fs w r)
            | _, _ =>
                (Ok (Completed 1 ""
                       "Cannot create a file when that file already exists."),
                 w)
            end
        end
  end.

End Cmd.

(* ================================================================== *)
(** * The engine: [main.py] *)

(** ** Operation records *)

Record operation_record := OperationRecord {
  original_src : string;
  final_dst : string;
  symlink_path : string;
}.

(** The dict of a record, its keys in the order the engine writes them. *)
Definition record_json (a b c : string) : json :=
  JObj [("original_src", JStr a); ("final_dst", JStr b);
        ("symlink_path", JStr c)].

Definition record_to_json (r : operation_record) : json :=
  record_json (original_src r) (final_dst r) (symlink_path r).

(** A ledger: the list of the records' dicts. *)
Definition ledger_json (rs : list operation_record) : json :=
  JArr (List.map record_to_json rs).

(** ** [load_history] and [save_history] *)

(** [open(HISTORY_FILE, "r")] and [f.read()]. *)
Definition open_read : M world string := λ w,
  match history_file w with
  | Content text => (Ok text, w)
  | Blocked => (Raise (OSError ("Permission denied: " +:+ quoted HISTORY_FILE)), w)
  | Absent => (Raise (no_such HISTORY_FILE), w)
  end.

(** [open(HISTORY_FILE, "w")] and the writes of [json.dump]. *)
Definition open_write (text : string) : M world () := λ w,
  match history_file w with
  | Blocked => (Raise (OSError ("Permission denied: " +:+ quoted HISTORY_FILE)), w)
  | _ => (Ok (), set_history_file w (Content text))
  end.

Definition json_load (text : string) : M world json :=
  match Json.loads text with
  | Some v => ret v
  | None => raise (ValueError "Expecting value")
  end.

Definition load_history : M world json :=
  let* ex := reads (λ w, match history_file w with Absent => false | _ => true end) in
  if negb ex then ret (JArr [])
  else
    try_except (let* text := open_read in json_load text)
      (λ _, true) (λ _, ret (JArr [])).

Definition save_history (history_list : json) : M world () :=
  open_write (Json.dump 0 history_list).

(** ** [move_item] *)

Definition move_item (src dst_folder : string) : M world string :=
  let* win := reads windows in
  let item_name := os_path_basename win (Str.rstrip src "\/") in
  let new_location := os_path_join win dst_folder item_name in
  on_fs (λ win r, os_makedirs win r dst_folder);;
  on_fs (λ win r, shutil_move win r src new_location);;
  ret new_location.

(** ** [create_symlink] *)

Definition mklink_cmd (d : bool) (src dst : string) : string :=
  (if d then "mklink /d " else "mklink ")
  +:+ Cmd.dq +:+ src +:+ Cmd.dq +:+ " " +:+ Cmd.dq +:+ dst +:+ Cmd.dq.

Definition create_symlink (src dst : string) : M world () :=
  let* sys := reads system in
  if negb (String.eqb sys "Windows") then
    raise (NotImplementedError
             "Symbolic links are only supported on Windows in this script.")
  else
    let* ex := reads (λ w, os_path_exists (windows w) (fs w) src) in
    if ex then
      raise (FileExistsError ("The source path '" +:+ src +:+ "' already exists."))
    else
      let* isd := reads (λ w, os_path_isdir (windows w) (fs w) dst) in
      let cmd := if isd then mklink_cmd true src dst
                 else mklink_cmd false src dst in
      let* result := Cmd.subprocess_run cmd in
      if negb (Cmd.returncode result =? 0)%Z then
        raise (CalledProcessError (Cmd.returncode result) cmd
                 (Cmd.stdout result) (Cmd.stderr result))
      else ret ().

(** ** [remove_symlink] *)

Definition remove_symlink (symlink_path : string) : M world () :=
  let* ex := reads (λ w, os_path_exists (windows w) (fs w) symlink_path) in
  if ex then
    let* isl := reads (λ w, os_path_islink (windows w) (fs w) symlink_path) in
    if isl then on_fs (λ win r, os_unlink win r symlink_path)
    else
      raise (PlainException
               "The specified path is not a symbolic link or already removed.")
  else ret ().

(** ** [validate_paths] *)

Definition validate_paths (src dst_folder : string) : M world bool :=
  let* src_ok := reads (λ w, negb (Str.is_empty src)
                        && os_path_exists (windows w) (fs w) src) in
  if negb src_ok then
    showerror "Error" "Invalid source path.";; ret false
  else
    let* dst_ok := reads (λ w, negb (Str.is_empty dst_folder)
                          && os_path_exists (windows w) (fs w) dst_folder) in
    if negb dst_ok then
      showerror "Error" "Invalid destination path.";; ret false
    else
      let* bad := reads (λ w, os_path_isdir (windows w) (fs w) src
                        && negb (os_path_isdir (windows w) (fs w) dst_folder)) in
      if bad then
        showerror "Error"
          "Cannot move a folder into a path that is not a folder.";;
        ret false
      else ret true.

(** ** [HistoryWindow] *)

(** [for record in history]: the items of a list, the keys of a dict, the
    characters of a string. *)
Definition py_iter {St} (v : json) : M St (list json) :=
  match v with
  | JArr items => ret items
  | JObj members => ret (List.map (λ kv, JStr (fst kv)) members)
  | JStr s => ret (List.map (λ c, JStr (Json.str1 c)) (list_ascii_of_string s))
  | _ => raise (TypeError "object is not iterable")
  end.

Fixpoint assoc (k : string) (d : list (string * json)) : option json :=
  match d with
  | [] => None
  | (k', v) :: d' => if String.eqb k k' then Some v else assoc k d'
  end.

(** [record[key]] *)
Definition py_getitem {St} (record : json) (key : string) : M St json :=
  match record with
  | JObj members =>
      match assoc key members with
      | Some v => ret v
      | None => raise (KeyError (quoted key))
      end
  | JArr _ => raise (TypeError "list indices must be integers or slices, not str")
  | JStr _ => raise (TypeError "string indices must be integers, not 'str'")
  | _ => raise (TypeError "object is not subscriptable")
  end.

(** The text a tree cell shows and gives back.  A string is shown as it
    is; the engine writes no other value in a record. *)
Definition tk_str (v : json) : string :=
  match v with
  | JStr s => s
  | _ => Json.dump 0 v
  end.

(** [value != symlink_path], the right side being a string. *)
Definition py_ne_str (v : json) (s : string) : bool :=
  match v with
  | JStr s' => negb (String.eqb s' s)
  | _ => true
  end.

(** The history window: the list it keeps in [self.history], the rows of
    its tree with their item identifiers, and the row that has the
    focus. *)
Record window := Window {
  history : json;
  rows : list (nat * (string * string * string));
  next_item : nat;
  focus : option nat;
}.

Fixpoint insert_rows {St} (records : list json) (hw : window) : M St window :=
  match records with
  | [] => ret hw
  | record :: records' =>
      let* a := py_getitem record "original_src" in
      let* b := py_getitem record "final_dst" in
      let* c := py_getitem record "symlink_path" in
      insert_rows records'
        (Window (history hw)
           (rows hw ++ [(next_item hw, (tk_str a, tk_str b, tk_str c))])
           (S (next_item hw)) (focus hw))
  end.

(** [HistoryWindow.__init__] *)
Definition HistoryWindow_init : M world window :=
  let* h := load_history in
  let* records := py_iter h in
  insert_rows records (Window h [] 1 None).

(** The user clicks on a row. *)
Definition select (hw : window) (item : nat) : window :=
  if bool_decide (item ∈ (List.map fst (rows hw)))
  then Window (history hw) (rows hw) (next_item hw) (Some item)
  else hw.

Fixpoint row_values (item : nat) (rs : list (nat * (string * string * string)))
    : option (string * string * string) :=
  match rs with
  | [] => None
  | (i, v) :: rs' => if Nat.eqb i item then Some v else row_values item rs'
  end.

(** [[record for record in history if record["symlink_path"] != symlink_path]] *)
Fixpoint filter_history {St} (records : list json) (symlink_path : string)
    : M St (list json) :=
  match records with
  | [] => ret []
  | record :: records' =>
      let* v := py_getitem record "symlink_path" in
      let* rest := filter_history records' symlink_path in
      ret (if py_ne_str v symlink_path then record :: rest else rest)
  end.

(** Window and world together; the engine functions touch the world. *)
Definition in_world {A} (m : M world A) : M (window * world) A := λ s,
  match m (snd s) with (r, w) => (r, (fst s, w)) end.

Definition gets_window {A} (f : window → A) : M (window * world) A := λ s,
  (Ok (f (fst s)), s).

Definition update_window (f : window → window) : M (window * world) () := λ s,
  (Ok (), (f (fst s), snd s)).

(** [HistoryWindow.revert_selected] *)
Definition revert_selected : M (window * world) () :=
  let* selected_item := gets_window focus in
  match selected_item with
  | None => in_world (showerror "Error" "No entry selected.")
  | Some item =>
      let* values := gets_window (λ hw, row_values item (rows hw)) in
      match values with
      | None => raise (PlainException "Item not found")
      | Some (original_src, final_dst, symlink_path) =>
          try_except
            (in_world (remove_symlink symlink_path);;
             in_world (on_fs (λ win r, shutil_move win r final_dst original_src));;
             in_world (showinfo "Success"
                         ("Reverted symlink and moved back to "
                            +:+ original_src +:+ "."));;
             let* h := gets_window history in
             let* records := py_iter h in
             let* kept := filter_history records symlink_path in
             update_window (λ hw, Window (JArr kept) (rows hw)
                                    (next_item hw) (focus hw));;
             let* h' := gets_window history in
             in_world (save_history h');;
             update_window (λ hw,
               Window (history hw)
                 (List.filter (λ r, negb (Nat.eqb (fst r) item)) (rows hw))
                 (next_item hw) None))
            (λ _, true)
            (λ e, in_world (showerror "Error" (str_exn e)))
      end
  end.

(** ** [SymlinkGUI.run_symlink_process] *)

(** [history_list.append(record)] *)
Definition py_append {St} (history_list record : json) : M St json :=
  match history_list with
  | JArr items => ret (JArr (items ++ [record]))
  | _ => raise (AttributeError "object has no attribute 'append'")
  end.

Definition make_record (src new_location : string) : json :=
  JObj [("original_src", JStr src);
        ("final_dst", JStr new_location);
        ("symlink_path", JStr src)].

Definition nl : string := Json.str1 "010"%char.

(** The steps inside [try]. *)
Definition commit_steps (src dst_folder : string) : M world () :=
  status_label "Moving item, please wait...";;
  let* new_location := move_item src dst_folder in
  status_label "Creating symlink...";;
  create_symlink src new_location;;
  let* history_list := load_history in
  let record := make_record src new_location in
  let* history_list' := py_append history_list record in
  save_history history_list';;
  showinfo "Success"
    ("Moved to " +:+ new_location +:+ " and created symlink.");;
  status_label "Operation completed successfully.".

(** The [except] clauses, in their order. *)
Definition commit_handler (e : exn) : M world () :=
  match e with
  | FileExistsError _ =>
      showerror "Error" (str_exn e);; status_label (str_exn e)
  | CalledProcessError _ _ _ stderr =>
      showerror "Error" ("Failed to create symlink." +:+ nl +:+ stderr);;
      status_label "Symlink creation failed."
  | NotImplementedError _ =>
      showerror "Error" (str_exn e);; status_label (str_exn e)
  | _ =>
      showerror "Error" ("An unexpected error occurred." +:+ nl +:+ str_exn e);;
      status_label "An unexpected error occurred."
  end.

(** [source_entry] and [dest_entry] are the texts of the two entries. *)
Definition run_symlink_process (source_entry dest_entry : string) : M world () :=
  let src := Str.strip source_entry in
  let dst_folder := Str.strip dest_entry in
  let* ok := validate_paths src dst_folder in
  if negb ok then ret ()
  else try_except (commit_steps src dst_folder) (λ _, true) commit_handler.

(* ================================================================== *)
(** * Definitions the proofs use *)

(** A value that is the dict of an operation record. *)
Definition is_record (v : json) : Prop :=
  ∃ a b c, v = record_json a b c.

Module JsonText.
Import Json.

(** The text of a member whose value is a string, from after the opening
    quote of the key. *)
Definition member_text (k v tail : string) : string :=
  encode_body k +:+ String dq (String ":" (String " " (String dq
    (encode_body v +:+ String dq tail)))).

Definition sp2 (tail : string) : string := String " " (String " " tail).

Definition open_object (tail : string) : string :=
  String "{" (String "010" (sp2 (sp2 (String dq tail)))).

Definition next_member (tail : string) : string :=
  String "," (String "010" (sp2 (sp2 (String dq tail)))).

Definition close_object (rest : string) : string :=
  String "010" (sp2 (String "}" rest)).

End JsonText.

(** The number of double quotes in a text. *)
Fixpoint count_dq (s : string) : nat :=
  match s with
  | EmptyString => 0
  | String c r => (if Ascii.eqb c Json.dq then 1 else 0) + count_dq r
  end.

(** ** The file tree *)

(** [r'] has every entry of [r], of the same kind. *)
Definition extends (r r' : node) : Prop :=
  ∀ q k, look r q = Some k → look r' q = Some k.

(** A destination that holds nothing: its folder is there and has no
    entry under the last name. *)
Definition vacant (win : bool) (r : node) (s : string) : Prop :=
  ∃ d n, slot win r s = Some (d, n) ∧ look r (d ++ [n]) = None.

(** ** Commit and revert *)

Definition sample_records : list operation_record :=
  [OperationRecord "C:\a\f" "D:\b\f" "C:\a\f";
   OperationRecord "C:\a\dir" "D:\b\dir" "C:\a\dir"].

(** A computation that leaves the history file as it is, whatever its
    result. *)
Definition keeps_ledger {A} (m : M world A) : Prop :=
  ∀ w, history_file (snd (m w)) = history_file w.

Definition moving (w : world) : world :=
  add_ui w (Status "Moving item, please wait...").

Definition linking (w : world) : world :=
  add_ui w (Status "Creating symlink...").

(** The steps after the link is made: load, append, save, report. *)
Definition record_steps (src new_location : string) : M world () :=
  let* history_list := load_history in
  let* history_list' := py_append history_list (make_record src new_location) in
  save_history history_list';;
  showinfo "Success"
    ("Moved to " +:+ new_location +:+ " and created symlink.");;
  status_label "Operation completed successfully.".

(** Drive [C:] with the files [C:\a\f] and [C:\a\g] and the empty
    directory [C:\b]. *)
Definition demo_tree : gmap string node :=
  {[ "C:" := Dir {[ "a" := Dir {[ "f" := File "x"; "g" := File "y" ]};
                    "b" := Dir ∅ ]} ]}.

Definition demo_windows : world := World "Windows" true demo_tree Absent [].

(** The files [/a/f] and [/a/g] and the empty directory [/b]. *)
Definition demo_posix_tree : gmap string node :=
  {[ "a" := Dir {[ "f" := File "x"; "g" := File "y" ]}; "b" := Dir ∅ ]}.

Definition demo_linux : world :=
  World "Linux" true demo_posix_tree (Content "[]") [].

Definition record_f : operation_record := OperationRecord "C:\a\f" "C:\b\f" "C:\a\f".
Definition record_g : operation_record := OperationRecord "C:\a\g" "C:\b\g" "C:\a\g".

(** [C:\a\f] is committed, the history window is opened, [C:\a\g] is
    committed from the main window, then the row of [C:\a\f] is reverted
    in the history window. *)
Definition after_first_commit : world :=
  snd (run_symlink_process "C:\a\f" "C:\b" demo_windows).

Definition opened_window : window :=
  Window (ledger_json [record_f]) [(1, ("C:\a\f", "C:\b\f", "C:\a\f"))] 2 None.

Definition after_second_commit : world :=
  snd (run_symlink_process "C:\a\g" "C:\b" after_first_commit).

Definition after_revert : window * world :=
  snd (revert_selected (select opened_window 1, after_second_commit)).

(* ================================================================== *)
(** * Definitions for the properties of links, window and commit *)

(** ** The history window *)

(** The row a record is shown as, under the item identifier [i]. *)
Definition row_of (i : nat) (r : operation_record)
    : nat * (string * string * string) :=
  (i, (original_src r, final_dst r, symlink_path r)).

(** The rows of a ledger of records, the first with identifier [i]. *)
Fixpoint ledger_rows (i : nat) (rs : list operation_record)
    : list (nat * (string * string * string)) :=
  match rs with
  | [] => []
  | r :: rs' => row_of i r :: ledger_rows (S i) rs'
  end.

(** A value with the three keys the window reads of a record. *)
Definition has_fields (v : json) : bool :=
  match v with
  | JObj members =>
      bool_decide (is_Some (assoc "original_src" members))
      && bool_decide (is_Some (assoc "final_dst" members))
      && bool_decide (is_Some (assoc "symlink_path" members))
  | _ => false
  end.

(** The focus is on a row of the window, or on none. *)
Definition focus_ok (hw : window) : Prop :=
  match focus hw with
  | Some item => is_Some (row_values item (rows hw))
  | None => True
  end.

(** A record of another link path than [c]. *)
Definition other_link (c : string) (r : operation_record) : bool :=
  negb (String.eqb (symlink_path r) c).

(** The result of the list comprehension of [revert_selected], which
    does not touch the state. *)
Definition kept_records (h : json) (c : string) : result (list json) :=
  fst ((let* records := py_iter h in filter_history records c) ()).

Definition success_text (a : string) : string :=
  "Reverted symlink and moved back to " +:+ a +:+ ".".

(** ** Dialogs *)

Definition is_dialog (e : ui_event) : bool :=
  match e with
  | Status _ => false
  | _ => true
  end.

(** The number of message boxes among the events shown. *)
Definition dialogs (shown : list ui_event) : nat :=
  length (List.filter is_dialog shown).


(** ** Blanks *)

(** A text made of the characters [str.strip()] removes. *)
Definition blank (t : string) : bool :=
  forallb (λ c, Str.mem c Str.whitespace) (list_ascii_of_string t).

(** ** Worlds *)

(** [demo_windows] for a process that may not create links. *)
Definition demo_unprivileged : world :=
  World "Windows" false demo_tree Absent [].


(** The link [C:\a\f] to [C:\b\f], which is not there. *)
Definition demo_dangling : world :=
  World "Windows" true
    {[ "C:" := Dir {[ "a" := Dir {[ "f" := Link false "C:\b\f" ]};
                      "b" := Dir ∅ ]} ]} Absent [].

(** The file [/a/f] and the directory [/b/f]. *)
Definition demo_occupied : world :=
  World "Linux" true
    {[ "a" := Dir {[ "f" := File "x" ]}; "b" := Dir {[ "f" := Dir ∅ ]} ]}
    Absent [].

(** [demo_windows] after the link [C:\a\h] to the folder [C:\b] is made. *)
Definition demo_linked : world :=
  snd (create_symlink "C:\a\h" "C:\b" demo_windows).

(* ================================================================== *)
(** * Facts on the file tree *)

Lemma get_app r p q : get r (p ++ q) = get r p ≫= λ m, get m q.
Proof.
  revert r; induction p as [|c p IH]; intros r; simpl; [done|].
  destruct r as [|es|]; try done. destruct (es !! c); [apply IH|done].
Qed.

Lemma look_nil_inv r p k :
  look r p = Some k → k ≠ KDir → ∀ c q, look r (p ++ c :: q) = None.
Proof.
  unfold look; intros H Hk c q. rewrite get_app.
  destruct (get r p) as [m|]; simpl in *; [|done].
  destruct m; simpl in *; try done. congruence.
Qed.

Lemma look_snoc_parent r d n k : look r (d ++ [n]) = Some k → look r d = Some KDir.
Proof.
  unfold look; rewrite get_app. destruct (get r d) as [m|]; simpl; [|done].
  destruct m; simpl; try done.
Qed.

Lemma look_prefix_dir r a q :
  a `prefix_of` q → a ≠ q → is_Some (look r q) → look r a = Some KDir.
Proof.
  intros [k ->] Hne [x Hx]. destruct k as [|c k]; [by rewrite app_nil_r in Hne|].
  destruct (look r a) as [ka|] eqn:Ha.
  - destruct ka; try done; by rewrite (look_nil_inv r a _ Ha) in Hx.
  - unfold look in *. rewrite get_app in Hx. destruct (get r a); done.
Qed.

Lemma put_nil r x : put r [] x = None.
Proof. done. Qed.

Lemma put_one es c x : put (Dir es) [c] x = Some (Dir (<[c:=x]> es)).
Proof. done. Qed.

Lemma put_cons2 es c c' p x :
  put (Dir es) (c :: c' :: p) x
  = m ← es !! c; m' ← put m (c' :: p) x; Some (Dir (<[c:=m']> es)).
Proof. done. Qed.

Lemma put_not_dir r c p x : (∀ es, r ≠ Dir es) → put r (c :: p) x = None.
Proof. destruct r; try done. intros H; by destruct (H entries). Qed.

Lemma del_one es c : del (Dir es) [c] = _ ← es !! c; Some (Dir (delete c es)).
Proof. done. Qed.

Lemma del_cons2 es c c' p :
  del (Dir es) (c :: c' :: p)
  = m ← es !! c; m' ← del m (c' :: p); Some (Dir (<[c:=m']> es)).
Proof. done. Qed.

#[local] Arguments put : simpl never.
#[local] Arguments del : simpl never.

(** The shape of a successful [put] or [del] below a directory. *)
Lemma put_inv r c b x r' :
  put r (c :: b) x = Some r' →
  ∃ es, r = Dir es ∧
    match b with
    | [] => r' = Dir (<[c:=x]> es)
    | _ => ∃ m m', es !! c = Some m ∧ put m b x = Some m' ∧ r' = Dir (<[c:=m']> es)
    end.
Proof.
  destruct r as [|es|]; try done. intros H. exists es; split; [done|].
  destruct b as [|c' b].
  - rewrite put_one in H. by simplify_eq.
  - rewrite put_cons2 in H. destruct (es !! c) as [m|]; [|done].
    simpl in H. destruct (put m (c' :: b) x) as [m'|] eqn:E; [|done].
    simpl in H. simplify_eq. eauto.
Qed.

Lemma del_inv r c a r' :
  del r (c :: a) = Some r' →
  ∃ es m, r = Dir es ∧ es !! c = Some m ∧
    match a with
    | [] => r' = Dir (delete c es)
    | _ => ∃ m', del m a = Some m' ∧ r' = Dir (<[c:=m']> es)
    end.
Proof.
  destruct r as [|es|]; try done. intros H.
  destruct a as [|c' a].
  - rewrite del_one in H. destruct (es !! c) as [m|] eqn:E; [|done].
    simpl in H. simplify_eq. by exists es, m.
  - rewrite del_cons2 in H. destruct (es !! c) as [m|] eqn:Em; [|done].
    simpl in H. destruct (del m (c' :: a)) as [m'|] eqn:E; [|done].
    simpl in H. simplify_eq. exists es, m. eauto.
Qed.

Lemma put_is_dir r b x r' : put r b x = Some r' → ∃ es, r' = Dir es.
Proof.
  destruct b as [|c b]; [done|]. intros (es & -> & H)%put_inv.
  destruct b; [eauto|]. destruct H as (?&?&?&?&->); eauto.
Qed.

Lemma del_is_dir r a r' : del r a = Some r' → ∃ es, r' = Dir es.
Proof.
  destruct a as [|c a]; [done|]. intros (es & m & -> & ? & H)%del_inv.
  destruct a; [eauto|]. destruct H as (?&?&->); eauto.
Qed.

Lemma get_put_in r b x r' s : put r b x = Some r' → get r' (b ++ s) = get x s.
Proof.
  revert r r'; induction b as [|c b IH]; intros r r'; [done|].
  intros (es & -> & H)%put_inv. destruct b as [|c' b].
  - subst. simpl. by rewrite lookup_insert_eq.
  - destruct H as (m & m' & Hm & Hp & ->). simpl. rewrite lookup_insert_eq.
    apply (IH m m' Hp).
Qed.

Lemma look_put_out r b x r' q :
  put r b x = Some r' → ¬ b `prefix_of` q → look r' q = look r q.
Proof.
  revert r r' q; induction b as [|c b IH]; intros r r' q; [done|].
  intros (es & -> & H)%put_inv Hq.
  destruct q as [|c' q]; [by destruct b; [subst|destruct H as (?&?&?&?&->)]|].
  destruct (decide (c' = c)) as [->|Hc].
  - destruct b as [|c2 b].
    + destruct Hq. by apply prefix_cons, prefix_nil.
    + destruct H as (m & m' & Hm & Hp & ->).
      unfold look; simpl. rewrite lookup_insert_eq, Hm.
      apply (IH m m' q Hp). intros Hpre; apply Hq. by apply prefix_cons.
  - destruct b as [|c2 b]; [subst|destruct H as (m & m' & Hm & Hp & ->)];
      unfold look; simpl; by rewrite lookup_insert_ne.
Qed.

Lemma get_del_in r a r' q : del r a = Some r' → a `prefix_of` q → get r' q = None.
Proof.
  revert r r' q; induction a as [|c a IH]; intros r r' q; [done|].
  intros (es & m & -> & Hm & H)%del_inv [k ->].
  destruct a as [|c2 a].
  - subst. simpl. by rewrite lookup_delete_eq.
  - destruct H as (m' & Hd & ->). simpl. rewrite lookup_insert_eq.
    apply (IH m m' (c2 :: a ++ k) Hd). by eexists.
Qed.

Lemma look_del_out r a r' q :
  del r a = Some r' → ¬ a `prefix_of` q → look r' q = look r q.
Proof.
  revert r r' q; induction a as [|c a IH]; intros r r' q; [done|].
  intros (es & m & -> & Hm & H)%del_inv Hq.
  destruct q as [|c' q]; [by destruct a; [subst|destruct H as (?&?&->)]|].
  destruct (decide (c' = c)) as [->|Hc].
  - destruct a as [|c2 a].
    + destruct Hq. by apply prefix_cons, prefix_nil.
    + destruct H as (m' & Hd & ->).
      unfold look; simpl. rewrite lookup_insert_eq, Hm.
      apply (IH m m' q Hd). intros Hpre; apply Hq. by apply prefix_cons.
  - destruct a as [|c2 a].
    + subst. unfold look; simpl. rewrite lookup_delete_ne by done. done.
    + destruct H as (m' & Hd & ->). unfold look; simpl.
      rewrite lookup_insert_ne by done. done.
Qed.

Lemma put_Some r d n x : look r d = Some KDir → is_Some (put r (d ++ [n]) x).
Proof.
  revert r; induction d as [|c d IH]; intros r; unfold look; simpl.
  - by destruct r.
  - destruct r as [|es|]; try done. destruct (es !! c) as [m|] eqn:E; [|done].
    intros H. destruct (IH m H) as [m' Hm'].
    destruct (d ++ [n]) as [|c2 l] eqn:Ed; [by destruct d|].
    rewrite put_cons2, E. simpl. rewrite Hm'. simpl. eauto.
Qed.

Lemma del_Some r a : a ≠ [] → is_Some (get r a) → is_Some (del r a).
Proof.
  revert r; induction a as [|c a IH]; intros r Hne; [done|]. simpl.
  destruct r as [|es|]; try by intros [? ?].
  destruct (es !! c) as [m|] eqn:E; [|by intros [? ?]].
  intros H. destruct a as [|c2 a].
  - rewrite del_one, E. simpl. eauto.
  - destruct (IH m) as [m' Hm']; [done|done|].
    rewrite del_cons2, E. simpl. rewrite Hm'. simpl. eauto.
Qed.

(** * Facts on resolution *)

Lemma walk_nil win f r fl cur : walk win f r fl cur [] = Some cur.
Proof. by destruct f. Qed.

Lemma walk_cons win f r fl cur c rest :
  walk win f r fl cur (c :: rest) =
    match look r (cur ++ [c]) with
    | None => None
    | Some KDir => walk win f r fl (cur ++ [c]) rest
    | Some (KFile _) => match rest with [] => Some (cur ++ [c]) | _ => None end
    | Some (KLink _ t) =>
        match rest, fl with
        | [], false => Some (cur ++ [c])
        | _, _ =>
            match f, start win cur t with
            | S f', Some (cur', ns) => walk win f' r fl cur' (ns ++ rest)
            | _, _ => None
            end
        end
    end.
Proof. by destruct f. Qed.

#[local] Arguments walk : simpl never.

(** The step a followed link takes. *)
Lemma walk_link win f r fl cur c rest b t :
  look r (cur ++ [c]) = Some (KLink b t) →
  (rest ≠ [] ∨ fl = true) →
  walk win f r fl cur (c :: rest) =
    match f, start win cur t with
    | S f', Some (cur', ns) => walk win f' r fl cur' (ns ++ rest)
    | _, _ => None
    end.
Proof.
  intros H Hr. rewrite walk_cons, H.
  destruct rest, fl; try done. by destruct Hr.
Qed.

Lemma start_loc win cur t cur' ns :
  start win cur t = Some (cur', ns) → cur' = [] ∨ cur' = cur.
Proof.
  unfold start. destruct (Str.is_empty t); [done|].
  destruct (is_abs win t); intros [= <- <-]; auto.
Qed.

(** A tree that keeps every entry of another resolves what the other
    resolves, to the same place. *)
Lemma walk_mono win r r' :
  (∀ q k, look r q = Some k → look r' q = Some k) →
  ∀ f fl cur rest l,
    walk win f r fl cur rest = Some l → walk win f r' fl cur rest = Some l.
Proof.
  intros Hext f. induction f as [f IHf] using lt_wf_ind.
  intros fl cur rest; revert cur.
  induction rest as [|c rest IH]; intros cur l.
  { by rewrite !walk_nil. }
  rewrite !walk_cons. destruct (look r (cur ++ [c])) as [k|] eqn:E; [|done].
  rewrite (Hext _ _ E). destruct k as [d| |b t]; [done|apply IH|].
  destruct rest as [|c' rest], fl; try done;
    (destruct f as [|f']; [done|]);
    (destruct (start win cur t) as [[cur' ns]|]; [|done]);
    apply IHf; lia.
Qed.

Lemma look_root r : look r [] = Some (kind_of r).
Proof. done. Qed.

(** What a walk resolves to is there. *)
Lemma walk_is_Some win r f fl cur rest l :
  is_Some (look r cur) → walk win f r fl cur rest = Some l → is_Some (look r l).
Proof.
  revert fl cur rest l. induction f as [f IHf] using lt_wf_ind.
  intros fl cur rest; revert cur.
  induction rest as [|c rest IH]; intros cur l Hcur.
  { rewrite walk_nil. by intros [= <-]. }
  rewrite walk_cons. destruct (look r (cur ++ [c])) as [k|] eqn:E; [|done].
  destruct k as [d| |b t].
  - destruct rest; [|done]. intros [= <-]. by rewrite E.
  - apply IH. by rewrite E.
  - destruct rest as [|c' rest], fl; try (intros [= <-]; by rewrite E);
      (destruct f as [|f']; [done|]);
      (destruct (start win cur t) as [[cur' ns]|] eqn:Es; [|done]);
      (apply IHf; [lia|]);
      by destruct (start_loc _ _ _ _ _ Es) as [->| ->].
Qed.

(** With the last name appended: the entry below the directory the head
    resolves to, whatever it is. *)
Lemma walk_snoc_eq win r n :
  ∀ f cur hd,
    walk win f r false cur (hd ++ [n])
    = d ← walk win f r true cur hd;
      match look r (d ++ [n]) with Some _ => Some (d ++ [n]) | None => None end.
Proof.
  intros f. induction f as [f IHf] using lt_wf_ind.
  intros cur hd; revert cur. induction hd as [|c hd IH]; intros cur.
  { rewrite walk_nil. simpl. rewrite walk_cons.
    destruct (look r (cur ++ [n])) as [[| |]|]; by rewrite ?walk_nil. }
  simpl. rewrite !walk_cons.
  destruct (look r (cur ++ [c])) as [k|] eqn:E; [|done].
  destruct k as [x| |b t].
  - destruct hd; [|done]. simpl.
    by rewrite (look_nil_inv r (cur ++ [c]) _ E).
  - apply IH.
  - destruct hd as [|c' hd]; simpl;
      (destruct f as [|f']; [done|]);
      (destruct (start win cur t) as [[cur' ns]|] eqn:Es; [|done]);
      rewrite <- (IHf f' ltac:(lia)); by rewrite <- ?app_assoc.
Qed.

Lemma walk_snoc win r n f cur hd d :
  walk win f r true cur hd = Some d →
  walk win f r false cur (hd ++ [n])
  = match look r (d ++ [n]) with Some _ => Some (d ++ [n]) | None => None end.
Proof. intros H. by rewrite walk_snoc_eq, H. Qed.

(** What resolves with the last link followed has an entry. *)
Lemma walk_follow_lexists win r :
  ∀ f cur rest l,
    walk win f r true cur rest = Some l →
    ∃ l', walk win f r false cur rest = Some l'.
Proof.
  intros f. induction f as [f IHf] using lt_wf_ind.
  intros cur rest; revert cur. induction rest as [|c rest IH]; intros cur l.
  { rewrite !walk_nil. eauto. }
  rewrite !walk_cons.
  destruct (look r (cur ++ [c])) as [k|] eqn:E; [|done].
  destruct k as [x| |b t]; [eauto|apply IH|].
  destruct rest as [|c' rest]; [eauto|].
  destruct f as [|f']; [done|].
  destruct (start win cur t) as [[cur' ns]|] eqn:Es; [|done].
  apply IHf; lia.
Qed.

(** The heads of a path that resolves resolve. *)
Lemma walk_prefix win r :
  ∀ f cur p q l,
    walk win f r true cur (p ++ q) = Some l →
    ∃ l', walk win f r true cur p = Some l'.
Proof.
  intros f. induction f as [f IHf] using lt_wf_ind.
  intros cur p; revert cur. induction p as [|c p IH]; intros cur q l.
  { rewrite walk_nil. eauto. }
  simpl. rewrite !walk_cons.
  destruct (look r (cur ++ [c])) as [k|] eqn:E; [|done].
  destruct k as [x| |b t].
  - destruct p; [eauto|done].
  - apply IH.
  - destruct f as [|f']; [by destruct (p ++ q)|].
    destruct (start win cur t) as [[cur' ns]|] eqn:Es; [|by destruct (p ++ q)].
    intros H. assert (walk win f' r true cur' ((ns ++ p) ++ q) = Some l) as H'.
    { rewrite <- app_assoc. by destruct (p ++ q). }
    destruct (IHf f' ltac:(lia) _ _ _ _ H') as [l' Hl'].
    exists l'. by destruct p.
Qed.

(** Resolution in a tree changed below [a] only: a walk that stays out of
    [a] comes out the same, one that enters [a] does not come out. *)
Lemma walk_outside win r r' a :
  a ≠ [] →
  (∀ q k, ¬ a `prefix_of` q → look r q = Some k → look r' q = Some k) →
  (∀ q, a `prefix_of` q → look r' q = None) →
  ∀ f fl cur rest l,
    ¬ a `prefix_of` cur →
    walk win f r fl cur rest = Some l →
    (walk win f r' fl cur rest = Some l ∧ ¬ a `prefix_of` l)
    ∨ walk win f r' fl cur rest = None.
Proof.
  intros Ha Hout Hin f. induction f as [f IHf] using lt_wf_ind.
  intros fl cur rest; revert cur. induction rest as [|c rest IH]; intros cur l Hcur.
  { rewrite !walk_nil. intros [= <-]. auto. }
  rewrite !walk_cons.
  destruct (decide (a `prefix_of` cur ++ [c])) as [Hp|Hp].
  { rewrite (Hin _ Hp). auto. }
  destruct (look r (cur ++ [c])) as [k|] eqn:E; [|done].
  rewrite (Hout _ _ Hp E).
  destruct k as [x| |b t].
  - destruct rest; [|done]. intros [= <-]. auto.
  - by apply IH.
  - assert (¬ a `prefix_of` []) as Hnil.
    { intros Hx. apply Ha. by apply prefix_nil_inv. }
    destruct rest as [|c' rest], fl; try (intros [= <-]; by auto);
      (destruct f as [|f']; [done|]);
      (destruct (start win cur t) as [[cur' ns]|] eqn:Es; [|done]);
      (apply IHf; [lia|]);
      by destruct (start_loc _ _ _ _ _ Es) as [->| ->].
Qed.


(* ================================================================== *)
Import Json JsonText.

(** * The text of a ledger reads back *)

Lemma app_cons_s x (a b : string) : String x a +:+ b = String x (a +:+ b).
Proof. done. Qed.

Lemma app_nil_s (b : string) : "" +:+ b = b.
Proof. done. Qed.

Lemma app_assoc_s (a b c : string) : (a +:+ b) +:+ c = a +:+ b +:+ c.
Proof. induction a as [|x a IH]; [done|]. by rewrite !app_cons_s, IH. Qed.

Lemma length_app_s (a b : string) :
  String.length (a +:+ b) = String.length a + String.length b.
Proof. induction a as [|x a IH]; [done|]. rewrite app_cons_s. simpl. by rewrite IH. Qed.

Ltac norm_str :=
  repeat (rewrite app_assoc_s || rewrite app_cons_s || rewrite app_nil_s).

Lemma scanstring_char c tail :
  scanstring (encode_char c +:+ tail)
  = '(str, rest) ← scanstring tail; Some (String c str, rest).
Proof. destruct c as [[] [] [] [] [] [] [] []]; reflexivity. Qed.

Lemma scanstring_encode s rest :
  scanstring (encode_body s +:+ String dq rest) = Some (s, rest).
Proof.
  induction s as [|c s IH]; [done|].
  simpl. rewrite app_assoc_s, scanstring_char, IH. done.
Qed.

(** A string value, as [scan_once] meets it. *)
Lemma scan_once_str f s rest :
  scan_once (S f) (encode_str s +:+ rest) = Some (JStr s, rest).
Proof.
  unfold encode_str, str1. norm_str. simpl. by rewrite scanstring_encode.
Qed.

Lemma scan_members_next f k v tail acc :
  scan_members (S (S f)) (member_text k v (next_member tail)) acc
  = scan_members (S f) tail ((k, JStr v) :: acc).
Proof.
  unfold member_text, next_member, sp2.
  cbn -[scanstring]. rewrite scanstring_encode.
  cbn -[scanstring]. rewrite scanstring_encode.
  cbn -[scanstring]. reflexivity.
Qed.

Lemma scan_members_last f k v rest acc :
  scan_members (S (S f)) (member_text k v (close_object rest)) acc
  = Some (JObj (dict_of (rev ((k, JStr v) :: acc))), rest).
Proof.
  unfold member_text, close_object, sp2.
  cbn -[scanstring dict_of]. rewrite scanstring_encode.
  cbn -[scanstring dict_of]. rewrite scanstring_encode.
  cbn -[scanstring dict_of]. reflexivity.
Qed.

Lemma scan_once_object f tail :
  scan_once (S f) (open_object tail) = scan_members f tail [].
Proof. reflexivity. Qed.

Lemma dump_record a b c rest :
  dump 1 (record_json a b c) +:+ rest
  = open_object (member_text "original_src" a
      (next_member (member_text "final_dst" b
         (next_member (member_text "symlink_path" c (close_object rest)))))).
Proof.
  unfold record_json, member_text, open_object, next_member, close_object, sp2.
  cbn [dump List.map join fst snd].
  unfold encode_str, nl, str1.
  cbn [repeat Nat.mul Nat.add string_of_list_ascii encode_body encode_char].
  norm_str. reflexivity.
Qed.

Lemma scan_once_record f a b c rest :
  scan_once (5 + f) (dump 1 (record_json a b c) +:+ rest)
  = Some (record_json a b c, rest).
Proof.
  rewrite dump_record. change (5 + f) with (S (S (S (S (S f))))).
  rewrite scan_once_object, !scan_members_next, scan_members_last.
  reflexivity.
Qed.

Lemma scan_items_S f s acc :
  scan_items (S f) s acc
  = '(v, r) ← scan_once f s;
    match skip_ws r with
    | String c r' =>
        if Ascii.eqb c "]" then Some (JArr (rev (v :: acc)), r')
        else if Ascii.eqb c "," then scan_items f (skip_ws r') (v :: acc)
        else None
    | EmptyString => None
    end.
Proof. reflexivity. Qed.

Lemma join_cons2 sp (x y : string) l :
  join sp (x :: y :: l) = x +:+ sp +:+ join sp (y :: l).
Proof. reflexivity. Qed.

(** The items after the first start with a brace, after the line break. *)
Lemma items_head sp a b c ts X :
  ∃ Y, join sp (dump 1 (record_json a b c) :: ts) +:+ X = open_object Y.
Proof.
  destruct ts as [|t ts].
  - cbn [join]. rewrite dump_record. eauto.
  - rewrite join_cons2, !app_assoc_s, dump_record. eauto.
Qed.

Lemma skip_ws_items sp a b c ts X :
  skip_ws (nl 1 +:+ join sp (dump 1 (record_json a b c) :: ts) +:+ X)
  = join sp (dump 1 (record_json a b c) :: ts) +:+ X.
Proof. by destruct (items_head sp a b c ts X) as [Y ->]. Qed.

Lemma scan_items_records (vs : list json) :
  Forall is_record vs →
  ∀ v acc f rest, is_record v → length vs + 6 ≤ f →
    scan_items f
      (join ("," +:+ nl 1) (List.map (dump 1) (v :: vs))
         +:+ String "010" (String "]" rest)) acc
    = Some (JArr (rev acc ++ v :: vs), rest).
Proof.
  induction 1 as [|v' vs Hv' Hvs IH]; intros v acc f rest (a & b & c & ->) Hf.
  - destruct f as [|f]; [simpl in Hf; lia|].
    cbn [List.map join]. rewrite scan_items_S.
    replace f with (5 + (f - 5)) by (simpl in Hf; lia).
    rewrite scan_once_record. reflexivity.
  - destruct f as [|f]; [simpl in Hf; lia|].
    cbn [List.map]. rewrite join_cons2, !app_assoc_s, scan_items_S.
    replace f with (5 + (f - 5)) at 1 by (simpl in Hf; lia).
    rewrite scan_once_record.
    pose proof Hv' as (a' & b' & c' & ->).
    cbn [mbind option_bind].
    assert (∀ X, skip_ws ("," +:+ nl 1 +:+ X) = String "," (nl 1 +:+ X)) as E1
      by reflexivity.
    rewrite E1. cbn [Ascii.eqb Bool.eqb].
    rewrite skip_ws_items.
    change (dump 1 (record_json a' b' c') :: List.map (dump 1) vs)
      with (List.map (dump 1) (record_json a' b' c' :: vs)).
    rewrite IH; [|done|simpl in Hf; lia].
    cbn [rev]. by rewrite <- app_assoc.
Qed.

Lemma length_join_ge sp (ts : list string) :
  Forall (λ t, 1 ≤ String.length t) ts → length ts ≤ String.length (join sp ts).
Proof.
  induction 1 as [|t ts Ht Hts IH]; [done|].
  destruct ts as [|t' ts]; [simpl; lia|].
  rewrite join_cons2, !length_app_s. simpl in *. lia.
Qed.

Lemma loads_dump_records (vs : list json) :
  Forall is_record vs → loads (dump 0 (JArr vs)) = Some (JArr vs).
Proof.
  intros Hvs. destruct Hvs as [|v vs Hv Hvs]; [reflexivity|].
  unfold loads.
  set (body := join ("," +:+ nl 1) (List.map (dump 1) (v :: vs))).
  assert (dump 0 (JArr (v :: vs))
          = String "[" (nl 1 +:+ body +:+ String "010" (String "]" ""))) as ->.
  { cbn [dump]. fold body. unfold nl at 3. cbn [repeat Nat.mul string_of_list_ascii].
    by norm_str. }
  assert (length (v :: vs) ≤ String.length body) as Hlen.
  { unfold body. rewrite <- (length_map (dump 1)). apply length_join_ge.
    apply Forall_map. eapply Forall_impl; [exact (Forall_cons_2 _ _ _ Hv Hvs)|].
    intros ? (a & b & c & ->). simpl. lia. }
  destruct Hv as (a & b & c & ->). 
  assert (skip_ws (String "[" (nl 1 +:+ body +:+ String "010" (String "]" "")))
          = String "[" (nl 1 +:+ body +:+ String "010" (String "]" ""))) as ->
    by reflexivity.
  assert (∀ f X, scan_once (S f) (String "[" (nl 1 +:+ body +:+ X))
                 = scan_items f (body +:+ X) []) as E.
  { intros f X. unfold body. cbn [List.map].
    by destruct (items_head ("," +:+ nl 1) a b c (List.map (dump 1) vs) X)
      as [Y ->]. }
  rewrite E. unfold body.
  rewrite (scan_items_records vs Hvs); [reflexivity|by exists a, b, c|].
  fold body. cbn [String.length]. rewrite !length_app_s.
  change (String.length (nl 1)) with 3. cbn [String.length length] in *. lia.
Qed.

(* ================================================================== *)
(** * The ledger *)


Lemma ledger_json_records rs : Forall is_record (List.map record_to_json rs).
Proof.
  apply Forall_map, Forall_true. intros r.
  by exists (original_src r), (final_dst r), (symlink_path r).
Qed.

Lemma load_history_eq w :
  load_history w
  = (Ok match history_file w with
        | Content text => default (JArr []) (loads text)
        | _ => JArr []
        end, w).
Proof.
  unfold load_history, bind, reads, try_except, open_read, json_load, ret, raise.
  destruct (history_file w) as [| |text] eqn:E; simpl; try done.
  all: rewrite ?E; simpl; try done. by destruct (loads text).
Qed.

Lemma save_history_eq v w :
  save_history v w
  = match history_file w with
    | Blocked => (Raise (OSError ("Permission denied: " +:+ quoted HISTORY_FILE)), w)
    | _ => (Ok (), set_history_file w (Content (dump 0 v)))
    end.
Proof. reflexivity. Qed.

(** What was saved is what is loaded, for a list of records. *)
Lemma load_after_save vs w w' :
  Forall is_record vs →
  save_history (JArr vs) w = (Ok (), w') →
  load_history w' = (Ok (JArr vs), w').
Proof.
  intros Hvs. rewrite save_history_eq.
  pose proof (loads_dump_records vs Hvs) as E.
  set (text := dump 0 (JArr vs)) in *. clearbody text.
  destruct (history_file w); intros [= <-]; rewrite load_history_eq;
    cbn [history_file set_history_file]; by rewrite E.
Qed.



(** [load_history] never raises: without a file, with a file that cannot
    be opened or whose text is not JSON it gives the empty list; otherwise
    it gives the value the text denotes, which is the list of records
    when [save_history] wrote it. *)
Lemma load_history_total (w : world) :
  load_history w
  = (Ok match history_file w with
        | Content text => default (JArr []) (loads text)
        | _ => JArr []
        end, w)
  ∧ ∀ records : list operation_record,
      history_file w = Content (dump 0 (ledger_json records)) →
      load_history w = (Ok (ledger_json records), w).
Proof.
  split; [apply load_history_eq|]. intros records H.
  rewrite load_history_eq, H. unfold ledger_json.
  by rewrite (loads_dump_records _ (ledger_json_records records)).
Qed.

(** C5 at a history file whose text is the JSON object [{}]: the text
    is read without error and [load_history] returns the object, which is
    not a list of records. *)
Lemma load_history_not_a_sequence :
  let w := World "Windows" true ∅ (Content "{}") [] in
  load_history w = (Ok (JObj []), w)
  ∧ ¬ ∃ items, fst (load_history w) = Ok (JArr items).
Proof.
  split; [reflexivity|]. intros [items H]. vm_compute in H. discriminate H.
Qed.

(* ================================================================== *)
(** * Commit *)

Lemma keeps_ret {A} (a : A) : keeps_ledger (ret a).
Proof. done. Qed.

Lemma keeps_raise {A} e : keeps_ledger (@raise world A e).
Proof. done. Qed.

Lemma keeps_reads {A} (f : world → A) : keeps_ledger (reads f).
Proof. done. Qed.

Lemma keeps_bind {A B} (m : M world A) (k : A → M world B) :
  keeps_ledger m → (∀ a, keeps_ledger (k a)) → keeps_ledger (bind m k).
Proof.
  intros Hm Hk w. unfold bind. specialize (Hm w).
  destruct (m w) as [[a|e] w1]; simpl in *; [|done].
  by rewrite Hk.
Qed.

Lemma keeps_try {A} (m : M world A) c h :
  keeps_ledger m → (∀ e, keeps_ledger (h e)) → keeps_ledger (try_except m c h).
Proof.
  intros Hm Hh w. unfold try_except. specialize (Hm w).
  destruct (m w) as [[a|e] w1]; simpl in *; [done|].
  destruct (c e); [|done]. by rewrite Hh.
Qed.

Lemma keeps_on_fs f : keeps_ledger (on_fs f).
Proof.
  intros w. unfold on_fs. destruct (f (windows w) (fs w)) as [r|e]; [|done].
  by destruct r.
Qed.

Lemma keeps_showerror t m : keeps_ledger (showerror t m).
Proof. done. Qed.

Lemma keeps_showinfo t m : keeps_ledger (showinfo t m).
Proof. done. Qed.

Lemma keeps_status t : keeps_ledger (status_label t).
Proof. done. Qed.

Lemma keeps_subprocess_run cmd : keeps_ledger (Cmd.subprocess_run cmd).
Proof.
  intros w. unfold Cmd.subprocess_run.
  destruct (Cmd.parse cmd) as [[[d link] target]|]; [|done].
  destruct (privileged w); simpl; [|done].
  destruct (slot true (fs w) link) as [[dir n]|]; [|done].
  destruct (look (fs w) (dir ++ [n])); [done|].
  destruct (put (fs w) (dir ++ [n]) (Link d target)) as [r|]; [|done].
  by destruct r.
Qed.

Create HintDb keeps discriminated.
#[local] Hint Resolve keeps_ret keeps_raise keeps_reads keeps_on_fs
  keeps_showerror keeps_showinfo keeps_status keeps_subprocess_run : keeps.

Ltac keeps :=
  repeat first
    [ apply keeps_bind; [|intros ?]
    | apply keeps_try; [|intros ?]
    | solve [auto with keeps]
    | match goal with |- keeps_ledger (if ?b then _ else _) => destruct b end
    | match goal with |- keeps_ledger (match ?e with _ => _ end) => destruct e end ].




Lemma keeps_remove_symlink p : keeps_ledger (remove_symlink p).
Proof. unfold remove_symlink. keeps. Qed.


Lemma keeps_load_history : keeps_ledger load_history.
Proof. intros w. by rewrite load_history_eq. Qed.

Lemma commit_steps_eq src dst w :
  commit_steps src dst w
  = match move_item src dst (moving w) with
    | (Ok new_location, w2) =>
        match create_symlink src new_location (linking w2) with
        | (Ok _, w3) => record_steps src new_location w3
        | (Raise e, w3) => (Raise e, w3)
        end
    | (Raise e, w2) => (Raise e, w2)
    end.
Proof.
  unfold commit_steps, record_steps, bind, status_label, moving, linking.
  destruct (move_item _ _ _) as [[nl|e] w2]; [|done].
  by destruct (create_symlink _ _ _) as [[[]|e] w3].
Qed.

Lemma run_symlink_process_eq source dest w :
  run_symlink_process source dest w
  = match validate_paths (Str.strip source) (Str.strip dest) w with
    | (Ok true, w1) =>
        match commit_steps (Str.strip source) (Str.strip dest) w1 with
        | (Ok a, w2) => (Ok a, w2)
        | (Raise e, w2) => commit_handler e w2
        end
    | (Ok false, w1) => (Ok (), w1)
    | (Raise e, w1) => (Raise e, w1)
    end.
Proof.
  unfold run_symlink_process, bind, try_except, ret.
  by destruct (validate_paths _ _ _) as [[[|]|e] w1].
Qed.


Lemma validate_paths_world src dst w :
  ∃ shown, snd (validate_paths src dst w)
           = World (system w) (privileged w) (tree w) (history_file w)
               (ui w ++ shown).
Proof.
  unfold validate_paths, bind, reads, showerror, ret, add_ui.
  destruct w as [sy pr tr hf u]; simpl.
  repeat match goal with
         | |- context [if ?b then _ else _] => destruct b; simpl
         end; first [by exists [] ; rewrite app_nil_r | by eexists [_]].
Qed.

Lemma windows_set_fs w r : windows (set_fs w r) = windows w.
Proof. by destruct r. Qed.

Lemma move_item_value src dst w new_location w' :
  move_item src dst w = (Ok new_location, w') →
  new_location
  = os_path_join (windows w) dst
      (os_path_basename (windows w) (Str.rstrip src "\/")).
Proof.
  unfold move_item, bind, reads, on_fs, ret. simpl.
  destruct (os_makedirs _ _ _); [|done].
  destruct (shutil_move _ _ _ _); [|done]. by intros [= <- _].
Qed.



(** ** Sample worlds *)



(* ================================================================== *)
(** * Revert *)

(** C1 at this input: the ledger on disk holds both records before the
    revert, so the claim asks for the ledger [[record_g]] afterwards; the
    code saves the list the window loaded when it was opened, filtered:
    the empty ledger.  The record of [C:\a\g] is lost, while its link and
    its moved file are still there. *)
Lemma revert_selected_saves_stale_history :
  HistoryWindow_init after_first_commit = (Ok opened_window, after_first_commit)
  ∧ load_history after_second_commit
    = (Ok (ledger_json [record_f; record_g]), after_second_commit)
  ∧ fst (revert_selected (select opened_window 1, after_second_commit)) = Ok ()
  ∧ history_file (snd after_revert) = Content (dump 0 (ledger_json []))
  ∧ history_file (snd after_revert) ≠ Content (dump 0 (ledger_json [record_g]))
  ∧ look (fs (snd after_revert)) ["C:"; "a"; "f"] = Some (KFile "x")
  ∧ look (fs (snd after_revert)) ["C:"; "a"; "g"] = Some (KLink false "C:\b\g").
Proof.
  repeat split; try (vm_compute; reflexivity).
  vm_compute. discriminate.
Qed.



(* ================================================================== *)
(** * Facts on the operations *)

Lemma unsnoc_Some {A} (l hd : list A) n : unsnoc l = Some (hd, n) → l = hd ++ [n].
Proof.
  unfold unsnoc. destruct (rev l) as [|x r] eqn:E; [done|].
  intros [= <- <-]. rewrite <- (rev_involutive l), E. done.
Qed.

Lemma unsnoc_snoc {A} (hd : list A) n : unsnoc (hd ++ [n]) = Some (hd, n).
Proof. unfold unsnoc. rewrite rev_app_distr. simpl. by rewrite rev_involutive. Qed.

Lemma look_under r b s : is_Some (look r (b ++ s)) → is_Some (look r b).
Proof.
  unfold look. rewrite get_app. destruct (get r b); [eauto|].
  simpl. by intros [? ?].
Qed.

(** Setting a new entry keeps every entry that was there. *)
Lemma look_put_new r b x r' q k :
  put r b x = Some r' → look r b = None →
  look r q = Some k → look r' q = Some k.
Proof.
  intros Hp Hb Hq. rewrite (look_put_out _ _ _ _ _ Hp); [done|].
  intros [s ->]. destruct (look_under r b s) as [? ?]; [eauto|congruence].
Qed.

Lemma locate_slot win r s d n :
  slot win r s = Some (d, n) →
  locate win r false s
  = match look r (d ++ [n]) with Some _ => Some (d ++ [n]) | None => None end.
Proof.
  unfold slot, locate. generalize symloop_max as f; intros f.
  destruct (unsnoc (names win s)) as [[hd n']|] eqn:E; simpl; [|done].
  destruct (walk win f r true [] hd) as [d'|] eqn:Ew; simpl; [|done].
  destruct (look r d') as [[| |]|]; try done. intros [= -> ->].
  apply unsnoc_Some in E.
  assert (Str.is_empty s = false) as ->.
  { destruct s; [|done]. destruct win, hd; discriminate E. }
  rewrite E. exact (walk_snoc win r n f [] hd d Ew).
Qed.

Lemma os_lstat_slot win r s d n :
  slot win r s = Some (d, n) → os_lstat win r s = look r (d ++ [n]).
Proof.
  intros H. unfold os_lstat. rewrite (locate_slot _ _ _ _ _ H).
  by destruct (look r (d ++ [n])) eqn:E.
Qed.

(** A new entry does not move the slots that were there. *)
Lemma slot_put_new win r b x r' s d n :
  put r b x = Some r' → look r b = None →
  slot win r s = Some (d, n) → slot win r' s = Some (d, n).
Proof.
  intros Hp Hb. unfold slot. generalize symloop_max as f; intros f.
  destruct (unsnoc (names win s)) as [[hd n']|]; simpl; [|done].
  destruct (walk win f r true [] hd) as [d'|] eqn:Ew; simpl; [|done].
  destruct (look r d') as [[| |]|] eqn:Ed; try done. intros [= -> ->].
  rewrite (walk_mono win r r' (λ q k, look_put_new r b x r' q k Hp Hb) _ _ _ _ _ Ew).
  simpl. by rewrite (look_put_new _ _ _ _ _ _ Hp Hb Ed).
Qed.

Lemma os_path_exists_nonempty win r s :
  os_path_exists win r s = true → Str.is_empty s = false.
Proof. by destruct s. Qed.

(** * Removing a link *)

Lemma remove_symlink_absent w p :
  os_path_exists (windows w) (fs w) p = false → remove_symlink p w = (Ok (), w).
Proof. intros H. unfold remove_symlink, bind, reads. by rewrite H. Qed.

Lemma remove_symlink_not_a_link w p :
  os_path_exists (windows w) (fs w) p = true →
  os_path_islink (windows w) (fs w) p = false →
  remove_symlink p w
  = (Raise (PlainException
              "The specified path is not a symbolic link or already removed."), w).
Proof. intros H1 H2. unfold remove_symlink, bind, reads. by rewrite H1, H2. Qed.

(** A link whose target is there is removed: nothing is left at its path,
    and every entry outside the link, its target among them, stays. *)
Lemma remove_symlink_link w p :
  os_path_exists (windows w) (fs w) p = true →
  os_path_islink (windows w) (fs w) p = true →
  ∃ l w',
    locate (windows w) (fs w) false p = Some l
    ∧ remove_symlink p w = (Ok (), w')
    ∧ os_path_lexists (windows w') (fs w') p = false
    ∧ ∀ q, ¬ l `prefix_of` q → look (fs w') q = look (fs w) q.
Proof.
  intros H1 H2. unfold remove_symlink, bind, reads, on_fs. rewrite H1, H2.
  unfold os_unlink. unfold os_path_islink, os_lstat in H2.
  destruct (locate (windows w) (fs w) false p) as [l|] eqn:El; [|done].
  simpl in H2. destruct (look (fs w) l) as [[| |b t]|] eqn:Ek; try done.
  assert (l ≠ []) as Hl by (intros ->; done).
  destruct (del_Some (fs w) l Hl) as [r' Hr'].
  { unfold look in Ek. destruct (get (fs w) l); [eauto|done]. }
  rewrite Hr'. destruct (del_is_dir _ _ _ Hr') as [es ->].
  exists l, (set_fs w (Dir es)). split; [done|]. split; [done|].
  assert (fs (set_fs w (Dir es)) = Dir es) as Hfs by done.
  rewrite windows_set_fs, Hfs.
  split; [|intros q Hq; by apply (look_del_out _ _ _ _ Hr')].
  unfold os_path_lexists, os_lstat, locate in *.
  destruct (Str.is_empty p); [done|]. revert El.
  generalize symloop_max as f; intros f El.
  destruct (walk_outside (windows w) (fs w) (Dir es) l Hl) with
    (f := f) (fl := false) (cur := @nil string) (rest := names (windows w) p) (l := l)
    as [[_ Hn]|Hnone]; try done.
  - intros q k Hq. by rewrite (look_del_out _ _ _ _ Hr' Hq).
  - intros q Hq. unfold look. by rewrite (get_del_in _ _ _ _ Hr' Hq).
  - intros Hx. apply Hl. by apply prefix_nil_inv.
  - by rewrite Hnone.
Qed.

(** * The [mklink] command line *)

Lemma count_dq_app a b : count_dq (a +:+ b) = count_dq a + count_dq b.
Proof.
  induction a as [|c a IH]; [done|]. rewrite app_cons_s. simpl. rewrite IH. lia.
Qed.

Lemma until_quote_inv s a r :
  Cmd.until_quote s = Some (a, r) → s = a +:+ String Json.dq r ∧ count_dq a = 0.
Proof.
  revert a. induction s as [|c s IH]; intros a; simpl; [done|].
  destruct (Ascii.eqb_spec c Json.dq) as [->|Hc].
  - by intros [= <- <-].
  - destruct (Cmd.until_quote s) as [[a' r']|]; [|done]. simpl.
    intros [= <- <-]. destruct (IH a' eq_refl) as [-> H]. split; [done|].
    simpl. destruct (Ascii.eqb_spec c Json.dq); [done|]. by rewrite H.
Qed.

Lemma strip_prefix_inv p s r : Json.strip_prefix p s = Some r → s = p +:+ r.
Proof.
  revert s. induction p as [|a p IH]; intros s; simpl; [by intros [= ->]|].
  destruct s as [|b s]; [done|]. destruct (Ascii.eqb_spec a b) as [->|]; [|done].
  intros H. rewrite app_cons_s. by rewrite (IH _ H).
Qed.

(** Up to the first quote, a text is cut in one way. *)
Lemma first_quote_unique a b x y :
  count_dq a = 0 → count_dq b = 0 →
  a +:+ String Json.dq x = b +:+ String Json.dq y → a = b ∧ x = y.
Proof.
  revert b. induction a as [|c a IH]; intros [|d b]; simpl.
  - by intros _ _ [= ->].
  - destruct (Ascii.eqb_spec d Json.dq); [done|]. intros _ _. rewrite app_cons_s.
    intros [= E]. congruence.
  - destruct (Ascii.eqb_spec c Json.dq); [done|]. intros _ _. rewrite app_cons_s.
    intros [= E]. congruence.
  - destruct (Ascii.eqb_spec c Json.dq); [done|].
    destruct (Ascii.eqb_spec d Json.dq); [done|]. simpl. intros Ha Hb.
    rewrite !app_cons_s. intros [= -> E].
    destruct (IH b Ha Hb E) as [-> ->]. done.
Qed.

Lemma mklink_cmd_eq d src dst :
  mklink_cmd d src dst
  = "mklink " +:+ (if d then "/d " else "")
      +:+ String Json.dq (src +:+ String Json.dq
            (String " " (String Json.dq (dst +:+ String Json.dq "")))).
Proof.
  unfold mklink_cmd, Cmd.dq, Json.str1. destruct d; norm_str; reflexivity.
Qed.

(** The shell reads the command of [create_symlink] as it was meant, or
    not at all. *)
Lemma parse_mklink_cmd d src dst d' link target :
  Cmd.parse (mklink_cmd d src dst) = Some (d', link, target) →
  d' = d ∧ link = src ∧ target = dst.
Proof.
  rewrite mklink_cmd_eq. unfold Cmd.parse.
  set (body := src +:+ _).
  assert (Json.strip_prefix "mklink "
            ("mklink " +:+ (if d then "/d " else "") +:+ String Json.dq body)
          = Some ((if d then "/d " else "") +:+ String Json.dq body)) as ->
    by reflexivity.
  cbn [mbind option_bind].
  assert (match Json.strip_prefix "/d "
                  ((if d then "/d " else "") +:+ String Json.dq body) with
          | Some r1 => (true, r1)
          | None => (false, (if d then "/d " else "") +:+ String Json.dq body)
          end = (d, String Json.dq body)) as -> by by destruct d.
  assert (Json.strip_prefix Cmd.dq (String Json.dq body) = Some body) as ->.
  { reflexivity. }
  cbn [mbind option_bind].
  destruct (Cmd.until_quote body) as [[l r3]|] eqn:E1; [|done].
  cbn [mbind option_bind].
  destruct (Json.strip_prefix (" " +:+ Cmd.dq) r3) as [r4|] eqn:E2; [|done].
  cbn [mbind option_bind].
  destruct (Cmd.until_quote r4) as [[t r5]|] eqn:E3; [|done].
  cbn [mbind option_bind].
  destruct r5; [|done]. intros [= <- <- <-]. split; [done|].
  apply until_quote_inv in E1 as [E1 Hl]. apply until_quote_inv in E3 as [E3 Ht].
  apply strip_prefix_inv in E2. subst r3 r4.
  assert (count_dq body = 3 + count_dq src + count_dq dst) as Hc1.
  { unfold body. rewrite !count_dq_app. simpl. rewrite !count_dq_app. simpl. lia. }
  assert (count_dq body = 3) as Hc2.
  { rewrite E1. rewrite !count_dq_app. simpl.
    unfold Cmd.dq, Json.str1. norm_str. simpl. rewrite !count_dq_app. simpl. lia. }
  assert (count_dq src = 0 ∧ count_dq dst = 0) as [Hs Hd] by lia.
  unfold body in E1.
  apply first_quote_unique in E1 as [-> E1]; [|done..].
  split; [done|].
  unfold Cmd.dq, Json.str1 in E1. revert E1. norm_str. intros [= E1].
  by apply first_quote_unique in E1 as [-> _].
Qed.

(** * Creating a link *)

Lemma look_put_at r b x r' : put r b x = Some r' → look r' b = Some (kind_of x).
Proof.
  intros H. unfold look. pose proof (get_put_in r b x r' [] H) as E.
  rewrite app_nil_r in E. by rewrite E.
Qed.

Lemma create_symlink_eq src dst w :
  create_symlink src dst w
  = if negb (windows w) then
      (Raise (NotImplementedError
                "Symbolic links are only supported on Windows in this script."),
       w)
    else if os_path_exists (windows w) (fs w) src then
      (Raise (FileExistsError
                ("The source path '" +:+ src +:+ "' already exists.")), w)
    else
      let cmd := mklink_cmd (os_path_isdir (windows w) (fs w) dst) src dst in
      match Cmd.subprocess_run cmd w with
      | (Ok result, w') =>
          if negb (Cmd.returncode result =? 0)%Z then
            (Raise (CalledProcessError (Cmd.returncode result) cmd
                      (Cmd.stdout result) (Cmd.stderr result)), w')
          else (Ok (), w')
      | (Raise e, w') => (Raise e, w')
      end.
Proof.
  unfold create_symlink, bind, reads, raise, ret. fold (windows w).
  destruct (windows w) eqn:Hw; simpl; [|done]. rewrite Hw.
  destruct (os_path_exists true (fs w) src); [done|]. simpl. rewrite Hw.
  destruct (os_path_isdir true (fs w) dst); simpl;
    destruct (Cmd.subprocess_run _ w) as [[res|e] w']; try done;
    by destruct (negb _).
Qed.

Lemma windows_true w : windows w = true ↔ system w = "Windows".
Proof. unfold windows. apply String.eqb_eq. Qed.



(** * Making the destination folder *)

(** [os.makedirs] on a path that resolves to a file: every head is there
    and left alone, the last [mkdir] fails, and the error stands. *)
Lemma makedirs_from_file win r s d :
  ∀ rest made l,
    rest ≠ [] →
    walk win symloop_max r true [] (made ++ rest) = Some l →
    look r l = Some (KFile d) →
    ∃ e, makedirs_from win r made rest s = Raise e.
Proof.
  intros rest.
  induction rest as [|c rest IH]; intros made l Hne Hw Hl; [done|].
  cbn [makedirs_from]. destruct rest as [|c2 rest].
  - assert (isdir_names win r (made ++ [c]) = false) as Hd.
    { unfold isdir_names. by rewrite Hw, Hl. }
    rewrite Hd. destruct (mkdir_names win r (made ++ [c]) s) as [r'|e] eqn:Em;
      [|eauto].
    exfalso. unfold mkdir_names in Em. rewrite unsnoc_snoc in Em.
    destruct (walk_prefix win r _ _ _ _ _ Hw) as [dd Hdd]. rewrite Hdd in Em.
    destruct (walk_follow_lexists win r _ _ _ _ Hw) as [l' Hl'].
    rewrite (walk_snoc win r c _ _ _ _ Hdd) in Hl'.
    by destruct (look r (dd ++ [c])).
  - assert (exists_names win r (made ++ [c]) = true) as He.
    { unfold exists_names.
      replace (made ++ c :: c2 :: rest) with ((made ++ [c]) ++ c2 :: rest) in Hw
        by by rewrite <- app_assoc.
      destruct (walk_prefix win r _ _ _ _ _ Hw) as [l' Hl']. rewrite Hl'.
      apply bool_decide_eq_true. eapply walk_is_Some; [|exact Hl'].
      by rewrite look_root. }
    rewrite He. apply (IH (made ++ [c]) l); [done| |done].
    by rewrite <- app_assoc.
Qed.

Lemma os_makedirs_file win es s d :
  os_stat win (Dir es) s = Some (KFile d) →
  ∃ e, os_makedirs win (Dir es) s = Raise e.
Proof.
  unfold os_stat, os_makedirs, locate. destruct (Str.is_empty s); [done|].
  destruct (walk win symloop_max (Dir es) true [] (names win s)) as [l|] eqn:Hw;
    [|done].
  simpl. intros Hl. apply (makedirs_from_file win (Dir es) s d _ [] l); try done.
  intros E. rewrite E in Hw. rewrite walk_nil in Hw. by simplify_eq.
Qed.

(** C10: a source that is not a directory, with a destination that is a
    regular file, passes the validator; the pair is refused only by the
    move, which fails at [os.makedirs] before anything is moved: the
    world is as it was, and the commit ends in the error dialog with tree
    and ledger unchanged. *)
Theorem validate_accepts_file_destination (w : world) (src dst_folder d : string) :
  os_path_exists (windows w) (fs w) src = true →
  os_path_isdir (windows w) (fs w) src = false →
  os_stat (windows w) (fs w) dst_folder = Some (KFile d) →
  validate_paths src dst_folder w = (Ok true, w)
  ∧ ∃ e, os_makedirs (windows w) (fs w) dst_folder = Raise e
         ∧ move_item src dst_folder w = (Raise e, w).
Proof.
  intros Hs Hsd Hd.
  assert (os_path_exists (windows w) (fs w) dst_folder = true) as Hde.
  { unfold os_path_exists. rewrite Hd. by apply bool_decide_eq_true. }
  split.
  - unfold validate_paths, bind, reads, ret. simpl.
    rewrite (os_path_exists_nonempty _ _ _ Hs), Hs. simpl.
    rewrite (os_path_exists_nonempty _ _ _ Hde), Hde. simpl.
    by rewrite Hsd.
  - destruct (os_makedirs_file _ _ _ _ Hd) as [e He]. exists e. split; [done|].
    unfold move_item, bind, reads, on_fs. simpl. unfold fs in *. by rewrite He.
Qed.

Lemma validate_accepts_file_destination_witness :
  validate_paths "/a/f" "/a/g" demo_linux = (Ok true, demo_linux)
  ∧ ∃ e, move_item "/a/f" "/a/g" demo_linux = (Raise e, demo_linux).
Proof.
  destruct (validate_accepts_file_destination demo_linux "/a/f" "/a/g" "y")
    as (Hv & e & _ & Hm); try (vm_compute; reflexivity).
  split; [exact Hv|]. exists e. exact Hm.
Defined.

(* ================================================================== *)
(** * Moving *)

(** A path whose last name is no link resolves the same way whether the
    last link is followed or not. *)
Lemma walk_nofollow_follow win r :
  ∀ f cur rest a,
    walk win f r false cur rest = Some a →
    (∀ b t, look r a ≠ Some (KLink b t)) →
    walk win f r true cur rest = Some a.
Proof.
  intros f. induction f as [f IHf] using lt_wf_ind.
  intros cur rest; revert cur. induction rest as [|c rest IH]; intros cur a.
  { by rewrite !walk_nil. }
  rewrite !walk_cons.
  destruct (look r (cur ++ [c])) as [k|] eqn:E; [|done].
  destruct k as [x| |b t]; [done|apply IH|].
  destruct rest as [|c' rest].
  - intros [= <-] H. by destruct (H b t).
  - destruct f as [|f']; [done|].
    destruct (start win cur t) as [[cur' ns]|]; [|done]. apply IHf. lia.
Qed.

Lemma locate_follow_None win r s :
  locate win r false s = None → locate win r true s = None.
Proof.
  unfold locate. destruct (Str.is_empty s); [done|].
  destruct (walk win symloop_max r true [] (names win s)) as [l|] eqn:E; [|done].
  destruct (walk_follow_lexists _ _ _ _ _ _ E) as [l' ->]. done.
Qed.

Lemma prefix_snoc_inv {A} (a d : list A) n :
  a `prefix_of` d ++ [n] → a = d ++ [n] ∨ a `prefix_of` d.
Proof.
  intros [k E]. destruct (rev k) as [|x k'] eqn:Ek.
  - left. apply (f_equal (@rev A)) in Ek. rewrite rev_involutive in Ek.
    subst k. by rewrite app_nil_r in E.
  - right. apply (f_equal (@rev A)) in Ek. rewrite rev_involutive in Ek.
    simpl in Ek. subst k. rewrite app_assoc in E.
    apply app_inj_tail in E as [-> _]. by eexists.
Qed.

(** The entry at [a] can be taken out and set at a vacant [d ++ [n]]
    that is not below it. *)
Lemma move_entry_Some r a d n :
  is_Some (look r a) → look r d = Some KDir → ¬ a `prefix_of` d ++ [n] →
  is_Some (move_entry r a (d ++ [n])).
Proof.
  intros [k Hk] Hd Hp. unfold move_entry.
  assert (a ≠ []) as Ha by (intros ->; apply Hp, prefix_nil).
  unfold look in Hk. destruct (get r a) as [x|] eqn:Ex; [|done]. simpl.
  destruct (del_Some r a Ha) as [r' Hr']; [by rewrite Ex|]. rewrite Hr'. simpl.
  apply put_Some. rewrite (look_del_out _ _ _ _ Hr'); [done|].
  intros [s ->]. apply Hp. exists (s ++ [n]). by rewrite app_assoc.
Qed.

(** [os.makedirs] gives a tree with a directory at the root. *)
Lemma mkdir_names_is_dir win r ns s r' :
  mkdir_names win r ns s = Ok r' → ∃ es, r' = Dir es.
Proof.
  unfold mkdir_names. destruct (unsnoc ns) as [[hd n]|]; [|done].
  destruct (walk _ _ _ _ _ _) as [d|]; [|done].
  destruct (look r (d ++ [n])); [done|].
  destruct (put r (d ++ [n]) (Dir ∅)) as [x|] eqn:E; [|done].
  intros [= <-]. by apply put_is_dir in E.
Qed.

Lemma makedirs_from_is_dir win s :
  ∀ rest r made r',
    (∃ es, r = Dir es) → makedirs_from win r made rest s = Ok r' → ∃ es, r' = Dir es.
Proof.
  intros rest. induction rest as [|c rest IH]; intros r made r' Hr.
  { by intros [= <-]. }
  cbn [makedirs_from]. destruct rest as [|c2 rest].
  - destruct (mkdir_names win r (made ++ [c]) s) as [x|e] eqn:E.
    + intros [= <-]. by apply mkdir_names_is_dir in E.
    + destruct (isdir_names win r (made ++ [c])); [|done]. by intros [= <-].
  - destruct (exists_names win r (made ++ [c])); [by apply IH|].
    destruct (mkdir_names win r (made ++ [c]) s) as [x|e] eqn:E.
    + apply IH. by apply mkdir_names_is_dir in E.
    + destruct (is_FileExistsError e); [by apply IH|done].
Qed.

Lemma os_makedirs_is_dir win es s r' :
  os_makedirs win (Dir es) s = Ok r' → ∃ es', r' = Dir es'.
Proof.
  unfold os_makedirs. destruct (Str.is_empty s); [done|].
  apply makedirs_from_is_dir. eauto.
Qed.

(** With the last name appended, for an entry that is no link. *)
Lemma walk_snoc_follow win r n :
  ∀ f cur hd d,
    walk win f r true cur hd = Some d →
    (∀ b t, look r (d ++ [n]) ≠ Some (KLink b t)) →
    walk win f r true cur (hd ++ [n])
    = match look r (d ++ [n]) with Some _ => Some (d ++ [n]) | None => None end.
Proof.
  intros f cur hd d Hw Hn.
  pose proof (walk_snoc win r n f cur hd d Hw) as E.
  destruct (look r (d ++ [n])) as [k|] eqn:Ek.
  - apply walk_nofollow_follow; [done|]. by rewrite Ek.
  - destruct (walk win f r true cur (hd ++ [n])) as [l|] eqn:El; [|done].
    destruct (walk_follow_lexists _ _ _ _ _ _ El) as [l' Hl']. congruence.
Qed.

(** After [os.makedirs] the path is a directory. *)
Lemma makedirs_from_isdir win s :
  ∀ rest r made r',
    rest ≠ [] →
    makedirs_from win r made rest s = Ok r' →
    isdir_names win r' (made ++ rest) = true.
Proof.
  intros rest. induction rest as [|c rest IH]; intros r made r' Hne; [done|].
  cbn [makedirs_from]. destruct rest as [|c2 rest].
  - destruct (mkdir_names win r (made ++ [c]) s) as [x|e] eqn:E.
    + intros [= <-]. unfold mkdir_names in E. rewrite unsnoc_snoc in E.
      destruct (walk win symloop_max r true [] made) as [d|] eqn:Ew; [|done].
      destruct (look r (d ++ [c])) eqn:El; [done|].
      destruct (put r (d ++ [c]) (Dir ∅)) as [y|] eqn:Ep; [|done].
      injection E as <-. unfold isdir_names.
      pose proof (walk_mono win r y
        (λ q k, look_put_new r _ _ y q k Ep El) _ _ _ _ _ Ew) as Ew'.
      rewrite (walk_snoc_follow win y c _ _ _ _ Ew');
        rewrite (look_put_at _ _ _ _ Ep); [|done]. simpl.
      by rewrite (look_put_at _ _ _ _ Ep).
    + destruct (isdir_names win r (made ++ [c])) eqn:Ei; [|done].
      by intros [= <-].
  - replace (made ++ c :: c2 :: rest) with ((made ++ [c]) ++ c2 :: rest)
      by by rewrite <- app_assoc.
    destruct (exists_names win r (made ++ [c])); [by apply IH|].
    destruct (mkdir_names win r (made ++ [c]) s) as [x|e] eqn:E; [by apply IH|].
    destruct (is_FileExistsError e); [by apply IH|done].
Qed.

Lemma os_path_isdir_names win r s :
  Str.is_empty s = false → os_path_isdir win r s = isdir_names win r (names win s).
Proof.
  intros Hs. unfold os_path_isdir, os_stat, locate, isdir_names. rewrite Hs.
  generalize symloop_max as f; intros f.
  by destruct (walk win f r true [] (names win s)).
Qed.

Lemma os_makedirs_isdir win es s r' :
  os_makedirs win (Dir es) s = Ok r' → os_path_isdir win r' s = true.
Proof.
  unfold os_makedirs. destruct (Str.is_empty s) eqn:Hs; [done|]. intros H.
  rewrite os_path_isdir_names by done.
  destruct (names win s) as [|c ns] eqn:En.
  - injection H as <-. unfold isdir_names. by rewrite walk_nil.
  - by apply (makedirs_from_isdir win s (c :: ns) (Dir es) [] r').
Qed.

Lemma extends_refl r : extends r r.
Proof. by intros q k. Qed.

Lemma extends_trans r1 r2 r3 : extends r1 r2 → extends r2 r3 → extends r1 r3.
Proof. intros H1 H2 q k H. by apply H2, H1. Qed.

Lemma mkdir_names_extends win r ns s r' :
  mkdir_names win r ns s = Ok r' → extends r r'.
Proof.
  unfold mkdir_names. destruct (unsnoc ns) as [[hd n]|]; [|done].
  destruct (walk _ _ _ _ _ _) as [d|]; [|done].
  destruct (look r (d ++ [n])) eqn:El; [done|].
  destruct (put r (d ++ [n]) (Dir ∅)) as [x|] eqn:E; [|done].
  intros [= <-] q k. by apply (look_put_new _ _ _ _ _ _ E El).
Qed.

Lemma makedirs_from_extends win s :
  ∀ rest r made r', makedirs_from win r made rest s = Ok r' → extends r r'.
Proof.
  intros rest. induction rest as [|c rest IH]; intros r made r'.
  { intros [= <-]. apply extends_refl. }
  cbn [makedirs_from]. destruct rest as [|c2 rest].
  - destruct (mkdir_names win r (made ++ [c]) s) as [x|e] eqn:E.
    + intros [= <-]. by apply mkdir_names_extends in E.
    + destruct (isdir_names win r (made ++ [c])); [|done].
      intros [= <-]. apply extends_refl.
  - destruct (exists_names win r (made ++ [c])); [by apply IH|].
    destruct (mkdir_names win r (made ++ [c]) s) as [x|e] eqn:E.
    + intros H. eapply extends_trans; [by eapply mkdir_names_extends|by eapply IH].
    + destruct (is_FileExistsError e); [by apply IH|done].
Qed.

Lemma os_makedirs_extends win r s r' : os_makedirs win r s = Ok r' → extends r r'.
Proof.
  unfold os_makedirs. destruct (Str.is_empty s); [done|].
  apply makedirs_from_extends.
Qed.

Lemma slot_mono win r r' s d n :
  extends r r' → slot win r s = Some (d, n) → slot win r' s = Some (d, n).
Proof.
  intros Hext. unfold slot. generalize symloop_max as f; intros f.
  destruct (unsnoc (names win s)) as [[hd n']|]; simpl; [|done].
  destruct (walk win f r true [] hd) as [d'|] eqn:Ew; simpl; [|done].
  destruct (look r d') as [[| |]|] eqn:Ed; try done. intros [= -> ->].
  rewrite (walk_mono win r r' Hext _ _ _ _ _ Ew). simpl. by rewrite (Hext _ _ Ed).
Qed.

Lemma slot_inv win r s d n :
  slot win r s = Some (d, n) →
  ∃ hd, names win s = hd ++ [n]
        ∧ walk win symloop_max r true [] hd = Some d
        ∧ look r d = Some KDir.
Proof.
  unfold slot. generalize symloop_max as f; intros f.
  destruct (unsnoc (names win s)) as [[hd n']|] eqn:E; simpl; [|done].
  destruct (walk win f r true [] hd) as [d'|] eqn:Ew; simpl; [|done].
  destruct (look r d') as [[| |]|] eqn:Ed; try done. intros [= -> ->].
  exists hd. by apply unsnoc_Some in E.
Qed.

Lemma locate_inv win r fl s l :
  locate win r fl s = Some l → walk win symloop_max r fl [] (names win s) = Some l.
Proof. unfold locate. by destruct (Str.is_empty s). Qed.

Lemma locate_is_Some win r fl s l :
  locate win r fl s = Some l → is_Some (look r l).
Proof.
  intros H%locate_inv. eapply walk_is_Some; [|exact H]. by rewrite look_root.
Qed.

Lemma locate_nofollow_follow win r s a :
  locate win r false s = Some a →
  (∀ b t, look r a ≠ Some (KLink b t)) →
  locate win r true s = Some a.
Proof.
  unfold locate. destruct (Str.is_empty s); [done|].
  apply walk_nofollow_follow.
Qed.


(** The tree after the entry at [a] went to the vacant [b]: what lay
    outside [a] is kept, nothing is left below [a]. *)
Lemma move_entry_outside r a b r2 :
  move_entry r a b = Some r2 →
  look r b = None → ¬ a `prefix_of` b →
  a ≠ []
  ∧ (∀ q k, ¬ a `prefix_of` q → look r q = Some k → look r2 q = Some k)
  ∧ (∀ q, a `prefix_of` q → look r2 q = None).
Proof.
  unfold move_entry. intros Hm Hb Hp.
  destruct (get r a) as [x|] eqn:Ex; [|done]. simpl in Hm.
  destruct (del r a) as [rd|] eqn:Ed; [|done]. simpl in Hm.
  split; [intros ->; apply Hp, prefix_nil|]. split.
  - intros q k Hq Hk. rewrite (look_put_out _ _ _ _ _ Hm).
    + by rewrite (look_del_out _ _ _ _ Ed Hq).
    + intros [t ->]. destruct (look_under r b t) as [? ?]; [eauto|congruence].
  - intros q Hq. rewrite (look_put_out _ _ _ _ _ Hm).
    + unfold look. by rewrite (get_del_in _ _ _ _ Ed Hq).
    + intros Hbq. destruct (prefix_weak_total _ _ _ Hq Hbq) as [?|[t ->]]; [done|].
      destruct (look_under r b t) as [? ?]; [|congruence].
      unfold look. rewrite Ex. eauto.
Qed.

(** A path that led to [a] leads nowhere afterwards. *)
Lemma moved_source_gone win r a b r2 s :
  move_entry r a b = Some r2 →
  look r b = None → ¬ a `prefix_of` b →
  locate win r false s = Some a →
  os_path_lexists win r2 s = false.
Proof.
  intros Hm Hb Hp Ha%locate_inv.
  destruct (move_entry_outside _ _ _ _ Hm Hb Hp) as (Hne & Hout & Hin).
  assert (locate win r2 false s = None) as Hl.
  { unfold locate. destruct (Str.is_empty s); [done|].
    destruct (walk_outside win r r2 a Hne Hout Hin _ _ _ _ _
                (λ H, Hne (prefix_nil_inv _ H)) Ha) as [[_ Hn]|Hnone]; done. }
  unfold os_path_lexists, os_lstat. by rewrite Hl.
Qed.

(** The path of the destination leads to the moved entry, if it leads
    anywhere. *)
Lemma moved_dest_named win r a d n r2 s b :
  move_entry r a (d ++ [n]) = Some r2 →
  look r (d ++ [n]) = None → ¬ a `prefix_of` d ++ [n] →
  slot win r s = Some (d, n) →
  locate win r2 false s = Some b →
  b = d ++ [n].
Proof.
  intros Hm Hb Hp (hd & Hn & Hw & _)%slot_inv Hl%locate_inv.
  destruct (move_entry_outside _ _ _ _ Hm Hb Hp) as (Hne & Hout & Hin).
  rewrite Hn, walk_snoc_eq in Hl.
  destruct (walk_outside win r r2 a Hne Hout Hin _ _ _ _ _
              (λ H, Hne (prefix_nil_inv _ H)) Hw) as [[Hw2 _]|Hw2];
    rewrite Hw2 in Hl; simpl in Hl; [|done].
  destruct (look r2 (d ++ [n])); [by injection Hl|discriminate Hl].
Qed.

Lemma move_item_eq src dst w :
  move_item src dst w
  = let win := windows w in
    let new_location :=
      os_path_join win dst (os_path_basename win (Str.rstrip src "\/")) in
    match os_makedirs win (fs w) dst with
    | Ok r1 =>
        match shutil_move win r1 src new_location with
        | Ok r2 => (Ok new_location, set_fs (set_fs w r1) r2)
        | Raise e => (Raise e, set_fs w r1)
        end
    | Raise e => (Raise e, w)
    end.
Proof.
  unfold move_item, bind, reads, on_fs, ret. simpl.
  destruct (os_makedirs (windows w) (fs w) dst) as [r1|e] eqn:E; [|done].
  destruct (os_makedirs_is_dir _ _ _ _ E) as [es ->].
  change (fs (set_fs w (Dir es))) with (Dir es).
  change (windows (set_fs w (Dir es))) with (windows w).
  by destruct (shutil_move _ _ _ _) as [r2|e].
Qed.




(** A directory at the new location takes the item in: the path returned
    names that directory, the item is one level below. *)
Lemma move_item_into_occupied :
  let w := World "Linux" true
             {[ "a" := Dir {[ "f" := File "x" ]};
                "b" := Dir {[ "f" := Dir ∅ ]} ]} Absent [] in
  let w' := snd (move_item "/a/f" "/b" w) in
  fst (move_item "/a/f" "/b" w) = Ok "/b/f"
  ∧ look (fs w') ["b"; "f"] = Some KDir
  ∧ look (fs w') ["b"; "f"; "f"] = Some (KFile "x").
Proof. repeat split; vm_compute; reflexivity. Qed.

(** * Removing a link whose target is gone *)

(** C3 at a link left without target: [os.path.exists] follows the link
    and answers no, so [remove_symlink] returns without removing it. *)
Lemma remove_symlink_keeps_dangling_link :
  let w := World "Windows" true
             {[ "C:" := Dir {[ "a" := Dir {[ "f" := Link false "C:\b\f" ]};
                               "b" := Dir ∅ ]} ]} Absent [] in
  os_path_islink true (fs w) "C:\a\f" = true
  ∧ remove_symlink "C:\a\f" w = (Ok (), w)
  ∧ os_lstat true (fs (snd (remove_symlink "C:\a\f" w))) "C:\a\f"
    = Some (KLink false "C:\b\f").
Proof. repeat split; vm_compute; reflexivity. Qed.

(* ================================================================== *)
(** * The validator *)

(** C9: [validate_paths] answers no exactly when the source is empty or
    not there, the destination folder is empty or not there, or the
    source is a directory and the destination is none; it answers yes in
    every other case.  It changes nothing but the dialogs shown. *)
Theorem validate_paths_decides (w : world) (src dst_folder : string) :
  let win := windows w in
  let r := validate_paths src dst_folder w in
  fst r = Ok (negb (Str.is_empty src || negb (os_path_exists win (fs w) src)
                    || Str.is_empty dst_folder
                    || negb (os_path_exists win (fs w) dst_folder)
                    || (os_path_isdir win (fs w) src
                        && negb (os_path_isdir win (fs w) dst_folder))))
  ∧ ∃ shown,
      snd r = World (system w) (privileged w) (tree w) (history_file w)
                (ui w ++ shown).
Proof.
  split; [|apply validate_paths_world].
  unfold validate_paths, bind, reads, showerror, ret; simpl.
  destruct (Str.is_empty src); simpl; [done|].
  destruct (os_path_exists (windows w) (fs w) src); simpl; [|done].
  destruct (Str.is_empty dst_folder); simpl; [done|].
  destruct (os_path_exists (windows w) (fs w) dst_folder); simpl; [|done].
  destruct (os_path_isdir (windows w) (fs w) src); simpl; [|done].
  by destruct (os_path_isdir (windows w) (fs w) dst_folder).
Qed.

(* ================================================================== *)
(** * Links: [create_symlink] and [remove_symlink] *)

(** ** Putting and removing an entry *)

Lemma look_cons es c p : look (Dir es) (c :: p) = m ← es !! c; look m p.
Proof. unfold look. simpl. by destruct (es !! c). Qed.

(** Removing an entry that was set at a free place gives the tree back. *)
Lemma del_put_new b : ∀ r x r',
  put r b x = Some r' → look r b = None → del r' b = Some r.
Proof.
  induction b as [|c b IH]; intros r x r' Hp Hl; [by rewrite put_nil in Hp|].
  destruct (put_inv _ _ _ _ _ Hp) as (es & -> & H).
  rewrite look_cons in Hl.
  destruct b as [|c' b].
  - subst r'. rewrite del_one, lookup_insert_eq. simpl.
    destruct (es !! c) eqn:E; [done|]. by rewrite delete_insert_id.
  - destruct H as (m & m' & Hm & Hpm & ->). rewrite Hm in Hl. simpl in Hl.
    rewrite del_cons2, lookup_insert_eq. simpl.
    rewrite (IH _ _ _ Hpm Hl). simpl.
    by rewrite insert_insert_eq, insert_id.
Qed.


Lemma set_fs_back w es : set_fs (set_fs w (Dir es)) (fs w) = w.
Proof. by destruct w. Qed.

Lemma lexists_false_exists win r s :
  os_path_lexists win r s = false → os_path_exists win r s = false.
Proof.
  unfold os_path_lexists, os_path_exists, os_lstat, os_stat. intros H.
  destruct (locate win r false s) as [l|] eqn:El.
  - simpl in H. apply bool_decide_eq_false in H.
    destruct (locate_is_Some _ _ _ _ _ El) as [k Hk]. rewrite Hk in H.
    by destruct H.
  - by rewrite (locate_follow_None _ _ _ El).
Qed.


(** ** The [mklink] process *)

Lemma subprocess_run_inv cmd w res w' :
  Cmd.subprocess_run cmd w = (Ok res, w') →
  (Cmd.returncode res = 1%Z ∧ w' = w)
  ∨ (Cmd.returncode res = 0%Z ∧ privileged w = true ∧
     ∃ d link target dir n r,
       Cmd.parse cmd = Some (d, link, target)
       ∧ slot true (fs w) link = Some (dir, n)
       ∧ look (fs w) (dir ++ [n]) = None
       ∧ put (fs w) (dir ++ [n]) (Link d target) = Some r
       ∧ w' = set_fs w r).
Proof.
  unfold Cmd.subprocess_run.
  destruct (Cmd.parse cmd) as [[[d l] t]|] eqn:Ep; [|intros [= <- <-]; by left].
  destruct (privileged w) eqn:Hp; simpl; [|intros [= <- <-]; by left].
  destruct (slot true (fs w) l) as [[dir n]|] eqn:Es; [|intros [= <- <-]; by left].
  destruct (look (fs w) (dir ++ [n])) eqn:El; [intros [= <- <-]; by left|].
  destruct (put (fs w) (dir ++ [n]) (Link d t)) as [r|] eqn:Epu;
    [|intros [= <- <-]; by left].
  intros [= <- <-]. right. split; [done|]. split; [done|].
  by exists d, l, t, dir, n, r.
Qed.

Lemma subprocess_run_Ok cmd w : ∃ res w', Cmd.subprocess_run cmd w = (Ok res, w').
Proof.
  unfold Cmd.subprocess_run.
  destruct (Cmd.parse cmd) as [[[d l] t]|]; [|eauto].
  destruct (negb (privileged w)); [eauto|].
  destruct (slot true (fs w) l) as [[dir n]|]; [|eauto].
  destruct (look (fs w) (dir ++ [n])); [eauto|].
  destruct (put (fs w) (dir ++ [n]) (Link d t)); eauto.
Qed.



(** ** [create_symlink] *)

Lemma create_symlink_Ok src dst w w' :
  create_symlink src dst w = (Ok (), w') →
  windows w = true ∧ os_path_exists true (fs w) src = false ∧
  ∃ d n r, slot true (fs w) src = Some (d, n) ∧ look (fs w) (d ++ [n]) = None
    ∧ put (fs w) (d ++ [n]) (Link (os_path_isdir true (fs w) dst) dst) = Some r
    ∧ w' = set_fs w r.
Proof.
  rewrite create_symlink_eq. destruct (windows w) eqn:Hw; simpl; [|done].
  destruct (os_path_exists true (fs w) src) eqn:He; [done|].
  destruct (Cmd.subprocess_run _ w) as [[res|e] w1] eqn:Er; [|done].
  destruct (subprocess_run_inv _ _ _ _ Er) as [[Hc ->]|(Hc & _ & H)];
    rewrite Hc; simpl; [done|].
  intros [= <-]. destruct H as (d & l & t & dir & n & r & Hp & Hs & Hl & Hpu & ->).
  apply parse_mklink_cmd in Hp as (-> & -> & ->).
  split; [done|]. split; [done|]. by exists dir, n, r.
Qed.





(** X2: when [create_symlink] raises, the world is as it was, and the
    exception is [NotImplementedError], the [FileExistsError] of the link
    path, or the [CalledProcessError] of the [mklink] command with return
    code 1. *)
Theorem create_symlink_failure_changes_nothing
    (w w' : world) (src dst : string) (e : exn) :
  create_symlink src dst w = (Raise e, w') →
  w' = w
  ∧ (e = NotImplementedError
           "Symbolic links are only supported on Windows in this script."
     ∨ e = FileExistsError ("The source path '" +:+ src +:+ "' already exists.")
     ∨ ∃ out err,
         e = CalledProcessError 1
               (mklink_cmd (os_path_isdir (windows w) (fs w) dst) src dst)
               out err).
Proof.
  rewrite create_symlink_eq. destruct (windows w) eqn:Hw; simpl.
  2: { intros [= <- <-]. auto. }
  destruct (os_path_exists true (fs w) src) eqn:He.
  { intros [= <- <-]. auto. }
  destruct (Cmd.subprocess_run _ w) as [[res|e'] w1] eqn:Er.
  2: { destruct (subprocess_run_Ok
                   (mklink_cmd (os_path_isdir true (fs w) dst) src dst) w)
         as (? & ? & Hx). congruence. }
  destruct (subprocess_run_inv _ _ _ _ Er) as [[Hc ->]|(Hc & _)];
    rewrite Hc; simpl; [|done].
  intros [= <-]. split; [done|]. right. right. eauto.
Qed.

Lemma create_symlink_failure_changes_nothing_witness :
  snd (create_symlink "C:\a\h" "C:\b" demo_unprivileged) = demo_unprivileged.
Proof.
  exact (proj1 (create_symlink_failure_changes_nothing demo_unprivileged
                  (snd (create_symlink "C:\a\h" "C:\b" demo_unprivileged))
                  "C:\a\h" "C:\b"
                  (CalledProcessError 1 (mklink_cmd true "C:\a\h" "C:\b") ""
                     "You do not have sufficient privilege to perform this operation.")
                  eq_refl)).
Defined.

(** X3: on Windows, a link path taken by a link whose target is not there
    passes the [os.path.exists] check, and [create_symlink] fails in
    [mklink] with [CalledProcessError], not with [FileExistsError]; the
    world is as it was. *)
Theorem create_symlink_over_dangling_link (w : world) (src dst : string) :
  system w = "Windows" →
  os_path_lexists true (fs w) src = true →
  os_path_exists true (fs w) src = false →
  ∃ out err,
    create_symlink src dst w
    = (Raise (CalledProcessError 1
                (mklink_cmd (os_path_isdir true (fs w) dst) src dst) out err), w).
Proof.
  intros Hsys Hl He. apply windows_true in Hsys.
  rewrite create_symlink_eq, Hsys. simpl. rewrite He.
  destruct (Cmd.subprocess_run _ w) as [[res|e'] w1] eqn:Er.
  2: { destruct (subprocess_run_Ok
                   (mklink_cmd (os_path_isdir true (fs w) dst) src dst) w)
         as (? & ? & Hx). congruence. }
  destruct (subprocess_run_inv _ _ _ _ Er) as [[Hc ->]|(Hc & _ & H)].
  - rewrite Hc. simpl. eauto.
  - exfalso. destruct H as (d & l & t & dir & n & r & Hp & Hs & Hk & _).
    apply parse_mklink_cmd in Hp as (-> & -> & ->).
    unfold os_path_lexists in Hl.
    rewrite (os_lstat_slot _ _ _ _ _ Hs), Hk in Hl. done.
Qed.

Lemma create_symlink_over_dangling_link_witness :
  ∃ out err,
    create_symlink "C:\a\f" "C:\b\f" demo_dangling
    = (Raise (CalledProcessError 1 (mklink_cmd false "C:\a\f" "C:\b\f") out err),
       demo_dangling).
Proof.
  exact (create_symlink_over_dangling_link demo_dangling "C:\a\f" "C:\b\f"
           eq_refl eq_refl eq_refl).
Defined.

(** ** [remove_symlink] *)

Lemma remove_symlink_eq p w :
  remove_symlink p w
  = if os_path_exists (windows w) (fs w) p then
      if os_path_islink (windows w) (fs w) p then
        match os_unlink (windows w) (fs w) p with
        | Ok r => (Ok (), set_fs w r)
        | Raise e => (Raise e, w)
        end
      else (Raise (PlainException
                     "The specified path is not a symbolic link or already removed."),
            w)
    else (Ok (), w).
Proof.
  unfold remove_symlink, bind, reads, on_fs, raise, ret.
  destruct (os_path_exists _ _ _); [|done]. by destruct (os_path_islink _ _ _).
Qed.



(** X4: a link that [create_symlink] made and whose target is there is
    removed by [remove_symlink], and the world is the one before the link
    was made. *)
Theorem create_then_remove_symlink (w w' : world) (src dst : string) :
  create_symlink src dst w = (Ok (), w') →
  os_path_exists (windows w') (fs w') src = true →
  remove_symlink src w' = (Ok (), w).
Proof.
  intros Hc He.
  destruct (create_symlink_Ok _ _ _ _ Hc) as (Hw & _ & d & n & r & Hs & Hl & Hp & ->).
  destruct (put_is_dir _ _ _ _ Hp) as [es ->].
  rewrite remove_symlink_eq, He.
  rewrite windows_set_fs, Hw.
  change (fs (set_fs w (Dir es))) with (Dir es).
  pose proof (slot_put_new true _ _ _ _ _ _ _ Hp Hl Hs) as Hs'.
  pose proof (look_put_at _ _ _ _ Hp) as Hk. simpl in Hk.
  unfold os_path_islink. rewrite (os_lstat_slot _ _ _ _ _ Hs'), Hk.
  unfold os_unlink. rewrite (locate_slot _ _ _ _ _ Hs'), Hk, Hk.
  rewrite (del_put_new _ _ _ _ Hp Hl). by rewrite set_fs_back.
Qed.

Lemma create_then_remove_symlink_witness :
  remove_symlink "C:\a\h" demo_linked = (Ok (), demo_windows).
Proof.
  apply (create_then_remove_symlink demo_windows demo_linked "C:\a\h" "C:\b").
  - vm_compute. reflexivity.
  - vm_compute. reflexivity.
Defined.

(** X5: after [remove_symlink] returned, a second call on the same path
    returns as well and changes nothing. *)
Theorem remove_symlink_twice (w w' : world) (p : string) :
  remove_symlink p w = (Ok (), w') → remove_symlink p w' = (Ok (), w').
Proof.
  intros H. destruct (os_path_exists (windows w) (fs w) p) eqn:He.
  - destruct (os_path_islink (windows w) (fs w) p) eqn:Hl.
    + destruct (remove_symlink_link w p He Hl) as (l & w1 & _ & Hr & Hgone & _).
      rewrite Hr in H. injection H as <-.
      apply remove_symlink_absent. by apply lexists_false_exists.
    + by rewrite (remove_symlink_not_a_link w p He Hl) in H.
  - rewrite (remove_symlink_absent w p He) in H. injection H as <-.
    by apply remove_symlink_absent.
Qed.

Lemma remove_symlink_twice_witness :
  remove_symlink "C:\a\h" demo_windows = (Ok (), demo_windows).
Proof.
  apply (remove_symlink_twice demo_linked demo_windows "C:\a\h").
  vm_compute. reflexivity.
Defined.



(* ================================================================== *)
(** * The ledger and the history window *)


(** ** [HistoryWindow.__init__] *)

Lemma insert_rows_records {St} (rs : list operation_record) :
  ∀ h rows i f (s : St),
    insert_rows (List.map record_to_json rs) (Window h rows i f) s
    = (Ok (Window h (rows ++ ledger_rows i rs) (i + length rs) f), s).
Proof.
  induction rs as [|r rs IH]; intros h rows i f s.
  - simpl. unfold ret. by rewrite app_nil_r, Nat.add_0_r.
  - cbn [List.map insert_rows]. unfold bind. cbn.
    rewrite IH. cbn [ledger_rows length].
    by rewrite <- app_assoc, Nat.add_succ_r.
Qed.

Lemma HistoryWindow_init_ledger w rs :
  load_history w = (Ok (ledger_json rs), w) →
  HistoryWindow_init w
  = (Ok (Window (ledger_json rs) (ledger_rows 1 rs) (S (length rs)) None), w).
Proof.
  intros E. unfold HistoryWindow_init, bind. rewrite E. unfold ledger_json at 1.
  cbn [py_iter]. unfold ret. by rewrite insert_rows_records.
Qed.

(** X8: a ledger of records that [save_history] wrote is shown by the
    history window row by row: one row a record, in the order of the
    ledger, with the three fields of the record; the window keeps the
    ledger and no row has the focus. *)
Theorem history_window_lists_ledger (w0 w : world) (rs : list operation_record) :
  save_history (ledger_json rs) w0 = (Ok (), w) →
  HistoryWindow_init w
  = (Ok (Window (ledger_json rs) (ledger_rows 1 rs) (S (length rs)) None), w).
Proof.
  intros H. apply HistoryWindow_init_ledger.
  apply (load_after_save _ w0); [apply ledger_json_records|exact H].
Qed.

Lemma history_window_lists_ledger_witness :
  let w := set_history_file demo_windows
             (Content (dump 0 (ledger_json sample_records))) in
  HistoryWindow_init w
  = (Ok (Window (ledger_json sample_records)
           [(1, ("C:\a\f", "D:\b\f", "C:\a\f"));
            (2, ("C:\a\dir", "D:\b\dir", "C:\a\dir"))] 3 None), w).
Proof.
  intros w.
  exact (history_window_lists_ledger demo_windows w sample_records eq_refl).
Defined.

Lemma insert_rows_is_Ok {St} (items : list json) :
  ∀ hw (s : St),
    is_Ok (fst (insert_rows items hw s)) = forallb has_fields items.
Proof.
  induction items as [|v items IH]; intros hw s; [done|].
  cbn [insert_rows forallb]. unfold bind at 1.
  destruct v as [| | | | | |members]; try done.
  cbn [py_getitem has_fields].
  destruct (assoc "original_src" members); [|done]. unfold ret at 1.
  unfold bind at 1. destruct (assoc "final_dst" members); [|done]. unfold ret at 1.
  unfold bind at 1. destruct (assoc "symlink_path" members); [|done]. unfold ret at 1.
  by rewrite IH.
Qed.

Lemma py_getitem_state {St} v k (s : St) : snd (py_getitem v k s) = s.
Proof.
  destruct v as [| | | | | |m]; try done. cbn. by destruct (assoc k m).
Qed.

Lemma insert_rows_state {St} (items : list json) :
  ∀ hw (s : St), snd (insert_rows items hw s) = s.
Proof.
  induction items as [|v items IH]; intros hw s; [done|].
  cbn [insert_rows]. unfold bind.
  pose proof (py_getitem_state v "original_src" s) as H1.
  destruct (py_getitem v "original_src" s) as [[a|e] s1]; simpl in H1; subst s1;
    [|done].
  pose proof (py_getitem_state v "final_dst" s) as H2.
  destruct (py_getitem v "final_dst" s) as [[b|e] s1]; simpl in H2; subst s1;
    [|done].
  pose proof (py_getitem_state v "symlink_path" s) as H3.
  destruct (py_getitem v "symlink_path" s) as [[c|e] s1]; simpl in H3; subst s1;
    [|done].
  apply IH.
Qed.

(** X9: when the history file holds a list, the history window opens
    exactly when every item of the list is a dict with the keys
    [original_src], [final_dst] and [symlink_path]; one item without them
    makes [__init__] raise.  The world is left as it is either way. *)
Theorem history_window_needs_fields (w : world) (items : list json) :
  load_history w = (Ok (JArr items), w) →
  is_Ok (fst (HistoryWindow_init w)) = forallb has_fields items
  ∧ snd (HistoryWindow_init w) = w.
Proof.
  intros H. unfold HistoryWindow_init, bind. rewrite H. cbn [py_iter]. unfold ret.
  split; [apply insert_rows_is_Ok|apply insert_rows_state].
Qed.

Lemma history_window_needs_fields_witness :
  let w := World "Windows" true ∅ (Content "[{}]") [] in
  is_Ok (fst (HistoryWindow_init w)) = false ∧ snd (HistoryWindow_init w) = w.
Proof.
  intros w.
  exact (history_window_needs_fields w [JObj []] eq_refl).
Defined.

(** ** [HistoryWindow.revert_selected] *)

Lemma py_getitem_unit {St} v k (s : St) :
  py_getitem v k s = (fst (py_getitem v k ()), s).
Proof.
  destruct v as [| | | | | |m]; try done. cbn. by destruct (assoc k m).
Qed.

Lemma filter_history_unit {St} (items : list json) c (s : St) :
  filter_history items c s = (fst (filter_history items c ()), s).
Proof.
  induction items as [|v items IH]; [done|].
  cbn [filter_history]. unfold bind.
  rewrite (py_getitem_unit v _ s).
  destruct (py_getitem v "symlink_path" ()) as [[a|e] []]; cbn [fst]; [|done].
  rewrite IH. by destruct (filter_history items c ()) as [[k|e] []].
Qed.

Lemma kept_records_eq {St} h c (s : St) :
  (let* records := py_iter h in filter_history records c) s = (kept_records h c, s).
Proof.
  unfold kept_records, bind.
  destruct h as [| | | |str|items|members]; try done; cbn [py_iter]; unfold ret;
    by rewrite filter_history_unit.
Qed.

(** [revert_selected], step by step. *)
Lemma revert_selected_eq hw w :
  revert_selected (hw, w)
  = match focus hw with
    | None => (Ok (), (hw, add_ui w (ShowError "Error" "No entry selected.")))
    | Some item =>
      match row_values item (rows hw) with
      | None => (Raise (PlainException "Item not found"), (hw, w))
      | Some (a, b, c) =>
        match remove_symlink c w with
        | (Raise e, w1) => (Ok (), (hw, add_ui w1 (ShowError "Error" (str_exn e))))
        | (Ok _, w1) =>
          match shutil_move (windows w1) (fs w1) b a with
          | Raise e => (Ok (), (hw, add_ui w1 (ShowError "Error" (str_exn e))))
          | Ok r2 =>
            let w2 := add_ui (set_fs w1 r2) (ShowInfo "Success" (success_text a)) in
            match kept_records (history hw) c with
            | Raise e => (Ok (), (hw, add_ui w2 (ShowError "Error" (str_exn e))))
            | Ok kept =>
              let hw' := Window (JArr kept) (rows hw) (next_item hw) (focus hw) in
              match save_history (JArr kept) w2 with
              | (Raise e, w3) =>
                  (Ok (), (hw', add_ui w3 (ShowError "Error" (str_exn e))))
              | (Ok _, w3) =>
                  (Ok (),
                   (Window (JArr kept)
                      (List.filter (λ r, negb (Nat.eqb (fst r) item)) (rows hw))
                      (next_item hw) None, w3))
              end
            end
          end
        end
      end
    end.
Proof.
  unfold revert_selected. unfold bind at 1. unfold gets_window at 1. cbn [fst snd].
  destruct (focus hw) as [item|] eqn:Ef; [|reflexivity].
  unfold bind at 1. unfold gets_window at 1. cbn [fst snd].
  destruct (row_values item (rows hw)) as [[[a b] c]|] eqn:Er; [|reflexivity].
  unfold try_except. unfold bind at 1. unfold in_world at 1. cbn [fst snd].
  destruct (remove_symlink c w) as [[[]|e] w1] eqn:E1; [|reflexivity].
  unfold bind at 1. unfold in_world at 1, on_fs at 1. cbn [fst snd].
  destruct (shutil_move (windows w1) (fs w1) b a) as [r2|e] eqn:E2; [|reflexivity].
  unfold bind at 1. unfold in_world at 1, showinfo at 1. cbn [fst snd].
  fold (success_text a).
  set (w2 := add_ui (set_fs w1 r2) (ShowInfo "Success" (success_text a))).
  unfold bind at 1. unfold gets_window at 1. cbn [fst snd].
  pose proof (kept_records_eq (history hw) c (hw, w2)) as Hk.
  unfold bind at 1 in Hk. unfold bind at 1.
  destruct (py_iter (history hw) (hw, w2)) as [[records|e] s1] eqn:Ei.
  2: { injection Hk as H1 H2. subst s1. rewrite <- H1. reflexivity. }
  unfold bind at 1. rewrite Hk.
  destruct (kept_records (history hw) c) as [kept|e]; [|reflexivity].
  unfold bind at 1. unfold update_window at 1. cbn [fst snd].
  unfold bind at 1. unfold gets_window at 1. cbn [fst snd history].
  unfold bind at 1. unfold in_world at 1. cbn [fst snd].
  destruct (save_history (JArr kept) w2) as [[[]|e] w3]; [reflexivity|].
  unfold in_world, showerror. cbn [fst snd]. by rewrite Ef.
Qed.

(** Of a ledger of records the comprehension keeps the records of the
    other link paths. *)
Lemma kept_records_ledger rs c :
  kept_records (ledger_json rs) c
  = Ok (List.map record_to_json (List.filter (other_link c) rs)).
Proof.
  unfold kept_records, bind, ledger_json. cbn [py_iter]. unfold ret.
  induction rs as [|r rs IH]; [done|].
  cbn [List.map filter_history List.filter]. unfold bind.
  cbn. destruct (filter_history (List.map record_to_json rs) c ()) as [[k|e] []];
    cbn in IH; [|done]. injection IH as ->.
  unfold ret, other_link. by destruct (String.eqb (symlink_path r) c).
Qed.

(** X10: with the focus on a row of the window or on none,
    [revert_selected] never raises: every failure ends in a dialog.  With
    no row selected it shows [No entry selected.] and changes nothing
    else. *)
Theorem revert_selected_never_raises (hw : window) (w : world) :
  focus_ok hw →
  fst (revert_selected (hw, w)) = Ok ()
  ∧ (focus hw = None →
     revert_selected (hw, w)
     = (Ok (), (hw, add_ui w (ShowError "Error" "No entry selected.")))).
Proof.
  unfold focus_ok. intros H. rewrite revert_selected_eq.
  destruct (focus hw) as [item|]; [|done]. split; [|done].
  destruct H as [[[a b] c] ->].
  destruct (remove_symlink c w) as [[[]|e] w1]; [|done].
  destruct (shutil_move _ _ b a); [|done]. cbv zeta.
  destruct (kept_records (history hw) c); [|done].
  by destruct (save_history _ _) as [[[]|?] ?].
Qed.

Lemma revert_selected_never_raises_witness :
  revert_selected (opened_window, after_first_commit)
  = (Ok (), (opened_window,
             add_ui after_first_commit (ShowError "Error" "No entry selected."))).
Proof.
  exact (proj2 (revert_selected_never_raises opened_window after_first_commit I)
           eq_refl).
Defined.



Lemma revert_selected_kept hw w w1 rs item a b c r2 :
  history hw = ledger_json rs →
  focus hw = Some item →
  row_values item (rows hw) = Some (a, b, c) →
  remove_symlink c w = (Ok (), w1) →
  shutil_move (windows w1) (fs w1) b a = Ok r2 →
  history_file w ≠ Blocked →
  revert_selected (hw, w)
  = (Ok (),
     (Window (ledger_json (List.filter (other_link c) rs))
        (List.filter (λ r, negb (Nat.eqb (fst r) item)) (rows hw))
        (next_item hw) None,
      set_history_file
        (add_ui (set_fs w1 r2) (ShowInfo "Success" (success_text a)))
        (Content (dump 0 (ledger_json (List.filter (other_link c) rs)))))).
Proof.
  intros Hh Hf Hr H1 H2 Hb. rewrite revert_selected_eq, Hf, Hr, H1, H2.
  cbv zeta. rewrite Hh, kept_records_ledger.
  fold (ledger_json (List.filter (other_link c) rs)).
  rewrite save_history_eq. cbn [history_file add_ui].
  pose proof (keeps_remove_symlink c w) as K1. rewrite H1 in K1. simpl in K1.
  assert (history_file (set_fs w1 r2) = history_file w) as ->.
  { rewrite <- K1. by destruct r2. }
  by destruct (history_file w).
Qed.

(** X12: a revert that succeeds, in a window whose list is a ledger of
    records: the link is removed, the item moved back, [Success] shown,
    and the ledger saved is the window's list without every record of
    the reverted link path; the window drops the selected row only, and
    [load_history] then gives the saved ledger. *)
Theorem revert_selected_success (hw : window) (w w1 : world)
    (rs : list operation_record) (item : nat) (a b c : string) (r2 : node) :
  let kept := List.filter (other_link c) rs in
  let w' := set_history_file
              (add_ui (set_fs w1 r2) (ShowInfo "Success" (success_text a)))
              (Content (dump 0 (ledger_json kept))) in
  history hw = ledger_json rs →
  focus hw = Some item →
  row_values item (rows hw) = Some (a, b, c) →
  remove_symlink c w = (Ok (), w1) →
  shutil_move (windows w1) (fs w1) b a = Ok r2 →
  history_file w ≠ Blocked →
  revert_selected (hw, w)
  = (Ok (),
     (Window (ledger_json kept)
        (List.filter (λ r, negb (Nat.eqb (fst r) item)) (rows hw))
        (next_item hw) None, w'))
  ∧ load_history w' = (Ok (ledger_json kept), w').
Proof.
  intros kept w' Hh Hf Hr H1 H2 Hb.
  split; [by apply (revert_selected_kept hw w w1 rs item a b c r2)|].
  apply (load_after_save _
           (add_ui (set_fs w1 r2) (ShowInfo "Success" (success_text a))));
    [apply ledger_json_records|].
  rewrite save_history_eq. cbn [history_file add_ui].
  pose proof (keeps_remove_symlink c w) as K1. rewrite H1 in K1. simpl in K1.
  assert (history_file (set_fs w1 r2) = history_file w) as ->.
  { rewrite <- K1. by destruct r2. }
  by destruct (history_file w).
Qed.

Lemma revert_selected_success_witness :
  let r := revert_selected (select opened_window 1, after_first_commit) in
  fst r = Ok ()
  ∧ tree (snd (snd r)) = demo_tree
  ∧ load_history (snd (snd r)) = (Ok (JArr []), snd (snd r)).
Proof.
  intros r.
  destruct (revert_selected_success (select opened_window 1) after_first_commit
              (snd (remove_symlink "C:\a\f" after_first_commit))
              [record_f] 1 "C:\a\f" "C:\b\f" "C:\a\f" (Dir demo_tree))
    as [H1 H2]; try (vm_compute; reflexivity).
  - vm_compute. discriminate.
  - unfold r. rewrite H1. split; [reflexivity|]. split; [reflexivity|].
    exact H2.
Defined.

(** ** Rows *)






(* ================================================================== *)
(** * Moving and committing *)

(** ** What a run shows *)

Lemma ui_set_fs w r : ui (set_fs w r) = ui w.
Proof. by destruct r. Qed.

Lemma move_item_ui src dst w : ui (snd (move_item src dst w)) = ui w.
Proof.
  rewrite move_item_eq. cbv zeta.
  destruct (os_makedirs _ _ _) as [r1|e]; [|done].
  destruct (shutil_move _ _ _ _) as [r2|e]; cbn [snd]; by rewrite ?ui_set_fs.
Qed.

Lemma create_symlink_ui src dst w : ui (snd (create_symlink src dst w)) = ui w.
Proof.
  rewrite create_symlink_eq.
  destruct (negb (windows w)); [done|].
  destruct (os_path_exists _ _ _); [done|]. cbv zeta.
  unfold Cmd.subprocess_run.
  destruct (Cmd.parse _) as [[[d l] t]|]; [|done].
  destruct (negb (privileged w)); [done|].
  destruct (slot true (fs w) l) as [[dir n]|]; [|done].
  destruct (look (fs w) (dir ++ [n])); [done|].
  destruct (put (fs w) (dir ++ [n]) (Link d t)); [|done].
  cbn. by rewrite ui_set_fs.
Qed.

Lemma validate_paths_cases src dst w :
  validate_paths src dst w = (Ok true, w)
  ∨ ∃ msg, validate_paths src dst w = (Ok false, add_ui w (ShowError "Error" msg)).
Proof.
  unfold validate_paths, bind, reads, showerror, ret.
  destruct (negb (_ && os_path_exists _ _ src)); [eauto|].
  destruct (negb (_ && os_path_exists _ _ dst)); [eauto|].
  destruct (_ && _); eauto.
Qed.

Lemma commit_handler_cases e w :
  ∃ msg st,
    commit_handler e w = (Ok (), add_ui (add_ui w (ShowError "Error" msg)) (Status st)).
Proof. destruct e; cbn; eauto. Qed.

Lemma record_steps_ui src nl w :
  match record_steps src nl w with
  | (Ok _, w') => ∃ i, ui w' = ui w ++ [ShowInfo "Success" i; Status "Operation completed successfully."]
  | (Raise _, w') => ui w' = ui w
  end.
Proof.
  unfold record_steps. unfold bind at 1. rewrite load_history_eq.
  set (h := match history_file w with Content t => _ | _ => _ end). clearbody h.
  unfold bind at 1.
  destruct h as [| | | | |items|]; try done. cbn [py_append]. unfold ret at 1.
  unfold bind at 1. rewrite save_history_eq.
  destruct (history_file w); try done; cbn; rewrite <- app_assoc; eauto.
Qed.

Lemma commit_steps_ui src dst w :
  match commit_steps src dst w with
  | (Ok _, w') => ∃ shown, ui w' = ui w ++ shown ∧ dialogs shown = 1
  | (Raise _, w') => ∃ shown, ui w' = ui w ++ shown ∧ dialogs shown = 0
  end.
Proof.
  rewrite commit_steps_eq.
  pose proof (move_item_ui src dst (moving w)) as H1.
  destruct (move_item src dst (moving w)) as [[nl|e] w2]; cbn [snd] in H1.
  2: { exists [Status "Moving item, please wait..."]. by rewrite H1. }
  pose proof (create_symlink_ui src nl (linking w2)) as H2.
  destruct (create_symlink src nl (linking w2)) as [[[]|e] w3]; cbn [snd] in H2.
  2: { exists [Status "Moving item, please wait..."; Status "Creating symlink..."].
       rewrite H2. cbn. rewrite H1. cbn. by rewrite <- app_assoc. }
  pose proof (record_steps_ui src nl w3) as H3.
  destruct (record_steps src nl w3) as [[[]|e] w4].
  - destruct H3 as [i H3].
    exists [Status "Moving item, please wait..."; Status "Creating symlink...";
            ShowInfo "Success" i; Status "Operation completed successfully."].
    rewrite H3, H2. cbn. rewrite H1. cbn. by rewrite <- !app_assoc.
  - exists [Status "Moving item, please wait..."; Status "Creating symlink..."].
    rewrite H3, H2. cbn. rewrite H1. cbn. by rewrite <- app_assoc.
Qed.

(** X13: [run_symlink_process] never raises, and every run shows exactly
    one message box: the error of the validator, the error of the step
    that failed, or [Success]. *)
Theorem run_symlink_process_reports_once (w : world) (source_entry dest_entry : string) :
  let r := run_symlink_process source_entry dest_entry w in
  fst r = Ok ()
  ∧ ∃ shown, ui (snd r) = ui w ++ shown ∧ dialogs shown = 1.
Proof.
  cbv zeta. rewrite run_symlink_process_eq.
  set (src := Str.strip source_entry). set (dst := Str.strip dest_entry).
  destruct (validate_paths_cases src dst w) as [->|[msg ->]].
  2: { split; [done|]. by exists [ShowError "Error" msg]. }
  pose proof (commit_steps_ui src dst w) as H.
  destruct (commit_steps src dst w) as [[[]|e] w2].
  - split; [done|]. exact H.
  - destruct H as (shown & Hs & Hd).
    destruct (commit_handler_cases e w2) as (msg & st & ->).
    split; [done|]. exists (shown ++ [ShowError "Error" msg; Status st]).
    split.
    + cbn. rewrite Hs. by rewrite <- !app_assoc.
    + unfold dialogs in *. rewrite List.filter_app, length_app, Hd. done.
Qed.

(** ** Blanks around the entries *)

Lemma list_ascii_app a b :
  list_ascii_of_string (a +:+ b) = list_ascii_of_string a ++ list_ascii_of_string b.
Proof. induction a as [|c a IH]; [done|]. rewrite app_cons_s. cbn. by rewrite IH. Qed.

Lemma lstrip_list_blank chars p l :
  forallb (λ c, Str.mem c chars) p = true →
  Str.lstrip_list chars (p ++ l) = Str.lstrip_list chars l.
Proof.
  induction p as [|c p IH]; [done|]. cbn. intros [-> H]%andb_true_iff. by apply IH.
Qed.

Lemma forallb_rev {A} (f : A → bool) l : forallb f (rev l) = forallb f l.
Proof.
  induction l as [|x l IH]; [done|]. cbn. rewrite forallb_app, IH. cbn.
  rewrite andb_true_r. apply andb_comm.
Qed.

Lemma lstrip_list_app_blank chars l q :
  forallb (λ c, Str.mem c chars) q = true →
  rev (Str.lstrip_list chars (rev (Str.lstrip_list chars (l ++ q))))
  = rev (Str.lstrip_list chars (rev (Str.lstrip_list chars l))).
Proof.
  intros Hq. induction l as [|c l IH].
  - cbn [app]. rewrite <- (app_nil_r q) at 1. rewrite (lstrip_list_blank _ _ _ Hq). done.
  - cbn [app Str.lstrip_list]. destruct (Str.mem c chars); [exact IH|].
    change (c :: l ++ q) with ((c :: l) ++ q). rewrite rev_app_distr.
    rewrite lstrip_list_blank; [done|]. by rewrite forallb_rev.
Qed.

Lemma strip_blanks pre s post :
  blank pre = true → blank post = true →
  Str.strip (pre +:+ s +:+ post) = Str.strip s.
Proof.
  unfold blank, Str.strip, Str.rstrip. intros H1 H2.
  rewrite !list_ascii_of_string_of_list_ascii, !list_ascii_app.
  rewrite (lstrip_list_blank _ _ _ H1).
  by rewrite (lstrip_list_app_blank _ _ _ H2).
Qed.

(** X14: blanks before and after the texts of the two entries do not
    matter: the run is the run on the texts without them. *)
Theorem run_symlink_process_ignores_blanks
    (w : world) (source_entry dest_entry pre post pre' post' : string) :
  blank pre = true → blank post = true → blank pre' = true → blank post' = true →
  run_symlink_process (pre +:+ source_entry +:+ post) (pre' +:+ dest_entry +:+ post') w
  = run_symlink_process source_entry dest_entry w.
Proof.
  intros H1 H2 H3 H4. unfold run_symlink_process.
  by rewrite !strip_blanks.
Qed.

Lemma run_symlink_process_ignores_blanks_witness :
  run_symlink_process " C:\a\f " "C:\b  " demo_windows
  = run_symlink_process "C:\a\f" "C:\b" demo_windows.
Proof.
  exact (run_symlink_process_ignores_blanks demo_windows "C:\a\f" "C:\b"
           " " " " "" "  " eq_refl eq_refl eq_refl eq_refl).
Defined.

(** ** The destination folder after validation *)

Lemma mkdir_names_exists win r made c s l :
  walk win symloop_max r true [] (made ++ [c]) = Some l →
  mkdir_names win r (made ++ [c]) s = Raise (file_exists s).
Proof.
  intros Hw. unfold mkdir_names. rewrite unsnoc_snoc.
  destruct (walk_prefix win r _ _ _ _ _ Hw) as [dd Hdd]. rewrite Hdd.
  destruct (walk_follow_lexists win r _ _ _ _ Hw) as [l' Hl'].
  rewrite (walk_snoc win r c _ _ _ _ Hdd) in Hl'.
  by destruct (look r (dd ++ [c])).
Qed.

Lemma isdir_names_walk win r ns :
  isdir_names win r ns = true →
  ∃ l, walk win symloop_max r true [] ns = Some l.
Proof.
  unfold isdir_names. generalize symloop_max as f; intros f.
  destruct (walk win f r true [] ns); [eauto|done].
Qed.

Lemma makedirs_from_isdir_noop win r s :
  ∀ rest made,
    isdir_names win r (made ++ rest) = true →
    makedirs_from win r made rest s = Ok r.
Proof.
  intros rest. induction rest as [|c rest IH]; intros made Hd; [done|].
  destruct (isdir_names_walk _ _ _ Hd) as [l Hw].
  cbn [makedirs_from]. destruct rest as [|c2 rest].
  - rewrite (mkdir_names_exists _ _ _ _ _ _ Hw). by rewrite Hd.
  - assert (exists_names win r (made ++ [c]) = true) as ->.
    { unfold exists_names.
      replace (made ++ c :: c2 :: rest) with ((made ++ [c]) ++ c2 :: rest) in Hw
        by by rewrite <- app_assoc.
      destruct (walk_prefix win r _ _ _ _ _ Hw) as [l' Hl']. rewrite Hl'.
      apply bool_decide_eq_true. eapply walk_is_Some; [|exact Hl'].
      by rewrite look_root. }
    apply IH. by rewrite <- app_assoc.
Qed.

Lemma os_makedirs_isdir_noop win r s :
  os_path_isdir win r s = true → os_makedirs win r s = Ok r.
Proof.
  intros H. unfold os_makedirs.
  destruct (Str.is_empty s) eqn:E; [by destruct s|].
  apply makedirs_from_isdir_noop. cbn [app]. by rewrite <- os_path_isdir_names.
Qed.

(** [os.stat] follows a link at the end of the path: it never reports a
    link. *)
Lemma walk_follow_no_link win r :
  (∀ b t, look r [] ≠ Some (KLink b t)) →
  ∀ f cur rest l,
    (∀ b t, look r cur ≠ Some (KLink b t)) →
    walk win f r true cur rest = Some l →
    ∀ b t, look r l ≠ Some (KLink b t).
Proof.
  intros Hroot f. induction f as [f IHf] using lt_wf_ind.
  intros cur rest; revert cur.
  induction rest as [|c rest IH]; intros cur l Hcur.
  { rewrite walk_nil. by intros [= <-]. }
  rewrite walk_cons. destruct (look r (cur ++ [c])) as [k|] eqn:E; [|done].
  destruct k as [d| |b t].
  - destruct rest; [|done]. intros [= <-] b t. by rewrite E.
  - apply IH. intros b t. by rewrite E.
  - assert (match rest with [] | _ => match f, start win cur t with
            | S f', Some (cur', ns) => walk win f' r true cur' (ns ++ rest)
            | _, _ => None end end = Some l → ∀ b t, look r l ≠ Some (KLink b t)) as H.
    { destruct rest; (destruct f as [|f']; [done|]);
        (destruct (start win cur t) as [[cur' ns]|] eqn:Es; [|done]);
        (apply IHf; [lia|]);
        by destruct (start_loc _ _ _ _ _ Es) as [->| ->]. }
    by destruct rest.
Qed.

Lemma os_stat_not_link win es s b t : os_stat win (Dir es) s ≠ Some (KLink b t).
Proof.
  unfold os_stat, locate. destruct (Str.is_empty s); [done|].
  generalize symloop_max as f; intros f.
  destruct (walk win f (Dir es) true [] (names win s)) as [l|] eqn:Ew; [|done].
  simpl. assert (∀ b t, look (Dir es) [] ≠ Some (KLink b t)) as Hr by done.
  by apply (walk_follow_no_link win (Dir es) Hr _ _ _ _ Hr Ew).
Qed.

Lemma os_makedirs_exists_noop win es s r1 :
  os_path_exists win (Dir es) s = true →
  os_makedirs win (Dir es) s = Ok r1 → r1 = Dir es.
Proof.
  intros He Hm. unfold os_path_exists in He. apply bool_decide_eq_true in He.
  destruct He as [k Hk]. destruct k as [d| |b t].
  - destruct (os_makedirs_file _ _ _ _ Hk) as [e He]. congruence.
  - assert (os_path_isdir win (Dir es) s = true) as Hd.
    { unfold os_path_isdir. by rewrite Hk. }
    rewrite (os_makedirs_isdir_noop _ _ _ Hd) in Hm. by injection Hm.
  - by destruct (os_stat_not_link win es s b t).
Qed.

Lemma validate_paths_true src dst w w1 :
  validate_paths src dst w = (Ok true, w1) →
  w1 = w
  ∧ os_path_exists (windows w) (fs w) src = true
  ∧ os_path_exists (windows w) (fs w) dst = true
  ∧ (os_path_isdir (windows w) (fs w) src = true →
     os_path_isdir (windows w) (fs w) dst = true).
Proof.
  unfold validate_paths, bind, reads, showerror, ret.
  destruct (Str.is_empty src); [done|]. cbn [negb andb].
  destruct (os_path_exists _ _ src); [|done]. cbn [negb].
  destruct (Str.is_empty dst); [done|]. cbn [negb andb].
  destruct (os_path_exists _ _ dst); [|done]. cbn [negb].
  destruct (os_path_isdir _ _ src); destruct (os_path_isdir _ _ dst); cbn; try done.
  all: by intros [= <-].
Qed.


(** X15: after [validate_paths] accepted the paths, the [os.makedirs] of
    [move_item] makes no folder: it fails, or it leaves the tree as it
    is, and [move_item] is [shutil.move] of the source to the new
    location on the tree as it was. *)
Theorem validated_move_makes_no_folder (w w1 : world) (src dst_folder : string) :
  let win := windows w in
  let new_location :=
    os_path_join win dst_folder (os_path_basename win (Str.rstrip src "\/")) in
  validate_paths src dst_folder w = (Ok true, w1) →
  w1 = w
  ∧ (∀ r1, os_makedirs win (fs w) dst_folder = Ok r1 → r1 = fs w)
  ∧ move_item src dst_folder w
    = match os_makedirs win (fs w) dst_folder with
      | Raise e => (Raise e, w)
      | Ok _ =>
          match shutil_move win (fs w) src new_location with
          | Ok r2 => (Ok new_location, set_fs w r2)
          | Raise e => (Raise e, w)
          end
      end.
Proof.
  cbv zeta. intros Hv. destruct (validate_paths_true _ _ _ _ Hv) as (-> & _ & Hd & _).
  split; [done|].
  assert (∀ r1, os_makedirs (windows w) (fs w) dst_folder = Ok r1 → r1 = fs w) as Hn.
  { intros r1 Hm. by apply (os_makedirs_exists_noop _ _ _ _ Hd Hm). }
  split; [exact Hn|]. rewrite move_item_eq. cbv zeta.
  destruct (os_makedirs (windows w) (fs w) dst_folder) as [r1|e] eqn:Hm; [|done].
  rewrite (Hn r1 eq_refl).
  destruct (shutil_move _ _ _ _) as [r2|e]; [|by destruct w].
  by destruct w, r2.
Qed.

Lemma validated_move_makes_no_folder_witness :
  os_makedirs false (fs demo_linux) "/b" = Ok (fs demo_linux).
Proof.
  destruct (validated_move_makes_no_folder demo_linux demo_linux "/a/f" "/b" eq_refl)
    as (_ & H & _).
  destruct (os_makedirs false (fs demo_linux) "/b") as [r1|e] eqn:E.
  - f_equal. exact (H r1 E).
  - vm_compute in E. discriminate E.
Defined.

(** ** [move_item] *)


Lemma move_entry_is_dir r a b r2 : move_entry r a b = Some r2 → ∃ es, r2 = Dir es.
Proof.
  unfold move_entry. destruct (get r a); [|done]. simpl.
  destruct (del r a); [|done]. simpl. apply put_is_dir.
Qed.



Lemma shutil_move_missing win r src dst :
  os_path_lexists win r src = false → ∃ e, shutil_move win r src dst = Raise e.
Proof.
  intros Hl.
  assert (locate win r false src = None) as Ea.
  { unfold os_path_lexists, os_lstat in Hl.
    destruct (locate win r false src) as [a|] eqn:Ea; [|done].
    destruct (locate_is_Some _ _ _ _ _ Ea) as [k Hk]. simpl in Hl.
    rewrite Hk in Hl. by apply bool_decide_eq_false in Hl; destruct Hl. }
  pose proof (locate_follow_None _ _ _ Ea) as Ea'.
  assert (os_stat win r src = None) as Hst by (unfold os_stat; by rewrite Ea').
  assert (os_path_islink win r src = false) as Hil.
  { unfold os_path_islink, os_lstat; by rewrite Ea. }
  assert (os_path_isdir win r src = false) as Hid.
  { unfold os_path_isdir; by rewrite Hst. }
  assert (∀ real, ∃ e, os_rename win r src real = Raise e ∧ is_OSError e = true) as Hren.
  { intros real. unfold os_rename. rewrite Ea. eauto. }
  assert (∀ real, ∃ e, shutil_copy2 win r src real = Raise e) as Hcp.
  { intros real. unfold shutil_copy2. rewrite Hst. eauto. }
  unfold shutil_move. rewrite Hil, Hid.
  assert (samefile win r src dst = false) as ->.
  { unfold samefile. by rewrite Ea'. }
  cbn [andb].
  destruct (os_path_isdir win r dst).
  - destruct (os_path_exists win r _); [eauto|].
    destruct (Hren (os_path_join win dst (shutil_basename win src))) as (e & -> & ->).
    cbn [negb]. destruct (Hcp (os_path_join win dst (shutil_basename win src))) as (e' & ->).
    eauto.
  - destruct (Hren dst) as (e & -> & ->).
    cbn [negb]. destruct (Hcp dst) as (e' & ->). eauto.
Qed.

(** X17: for a source that names nothing, [move_item] raises, and the
    destination folder [os.makedirs] made before stays: the tree is the
    one [os.makedirs] left, with every entry that was there. *)
Theorem move_item_missing_source (w : world) (src dst_folder : string) (r1 : node) :
  os_makedirs (windows w) (fs w) dst_folder = Ok r1 →
  os_path_lexists (windows w) r1 src = false →
  ∃ e, move_item src dst_folder w = (Raise e, set_fs w r1)
       ∧ os_path_isdir (windows w) r1 dst_folder = true
       ∧ extends (fs w) r1.
Proof.
  intros Hm Hl. rewrite move_item_eq. cbv zeta. rewrite Hm.
  destruct (shutil_move_missing (windows w) r1 src
              (os_path_join (windows w) dst_folder
                 (os_path_basename (windows w) (Str.rstrip src "\/"))) Hl)
    as [e ->].
  exists e. split; [done|]. split.
  - by apply (os_makedirs_isdir _ _ _ _ Hm).
  - by apply (os_makedirs_extends _ _ _ _ Hm).
Qed.

Lemma move_item_missing_source_witness :
  ∃ e, fst (move_item "/a/zz" "/c/d" demo_linux) = Raise e
       ∧ look (fs (snd (move_item "/a/zz" "/c/d" demo_linux))) ["c"; "d"]
         = Some KDir.
Proof.
  destruct (move_item_missing_source demo_linux "/a/zz" "/c/d"
              (Dir (<["c" := Dir {["d" := Dir ∅]}]> demo_posix_tree)))
    as (e & He & _).
  - vm_compute. reflexivity.
  - vm_compute. reflexivity.
  - exists e. rewrite He. split; [reflexivity|]. vm_compute. reflexivity.
Defined.

(** The second half of [shutil.move], with a free place as destination. *)
Lemma finish_vacant win r src dst real d n r2 :
  slot win r real = Some (d, n) →
  look r (d ++ [n]) = None →
  match os_rename win r src real with
  | Ok root' => Ok root'
  | Raise e =>
      if negb (is_OSError e) then Raise e
      else if os_path_islink win r src then
        match os_lstat win r src with
        | Some (KLink _ linkto) =>
            r' ← os_symlink win r linkto real; os_unlink win r' src
        | _ => Raise (no_such src)
        end
      else if os_path_isdir win r src then
        if destinsrc win src dst then
          Raise (ShutilError ("Cannot move a directory " +:+ quoted src
                                +:+ " into itself " +:+ quoted dst +:+ "."))
        else copytree_rmtree win r src real
      else
        r' ← shutil_copy2 win r src real; os_unlink win r' src
  end = Ok r2 →
  ∃ a, locate win r false src = Some a
       ∧ is_Some (look r a)
       ∧ ¬ a `prefix_of` d ++ [n]
       ∧ move_entry r a (d ++ [n]) = Some r2.
Proof.
  intros Hslot Hfree.
  assert (look r d = Some KDir) as Hd.
  { by destruct (slot_inv _ _ _ _ _ Hslot) as (? & _ & _ & ?). }
  assert (locate win r false real = None) as Hl.
  { by rewrite (locate_slot _ _ _ _ _ Hslot), Hfree. }
  assert (os_path_lexists win r real = false) as Hlex.
  { unfold os_path_lexists, os_lstat; by rewrite Hl. }
  unfold os_rename. rewrite Hslot.
  destruct (locate win r false src) as [a|] eqn:Ea.
  2: { cbn [negb is_OSError no_such].
    assert (os_path_islink win r src = false) as ->.
    { unfold os_path_islink, os_lstat; by rewrite Ea. }
    assert (os_stat win r src = None) as Hst.
    { unfold os_stat; by rewrite (locate_follow_None _ _ _ Ea). }
    assert (os_path_isdir win r src = false) as ->.
    { unfold os_path_isdir; by rewrite Hst. }
    unfold shutil_copy2. by rewrite Hst. }
  assert (is_Some (look r a)) as [ka Hka].
  { by eapply locate_is_Some. }
  rewrite Hka.
  assert (a ≠ d ++ [n]) as Hne by (intros ->; congruence).
  rewrite bool_decide_eq_false_2 by done.
  destruct (decide (a `prefix_of` d ++ [n])) as [Hp|Hp].
  - rewrite bool_decide_eq_true_2 by done.
    cbn [negb is_OSError].
    assert (ka = KDir) as ->.
    { destruct (prefix_snoc_inv _ _ _ Hp) as [?|Hpd]; [done|].
      destruct (decide (a = d)) as [->|Had]; [congruence|].
      assert (look r a = Some KDir); [|congruence].
      apply (look_prefix_dir r a d Hpd Had). by rewrite Hd. }
    assert (os_path_islink win r src = false) as ->.
    { unfold os_path_islink, os_lstat; rewrite Ea; simpl; by rewrite Hka. }
    assert (locate win r true src = Some a) as Ea'.
    { apply locate_nofollow_follow; [done|]; intros b t; by rewrite Hka. }
    assert (os_path_isdir win r src = true) as ->.
    { unfold os_path_isdir, os_stat; rewrite Ea'; simpl; by rewrite Hka. }
    destruct (destinsrc win src dst); [done|].
    unfold copytree_rmtree. rewrite Ea', Hlex.
    destruct (os_makedirs win r real) as [rm|e] eqn:Em; [|done].
    cbn [mbind result_bind].
    rewrite (slot_mono _ _ _ _ _ _ (os_makedirs_extends _ _ _ _ Em) Hslot).
    by rewrite bool_decide_eq_true_2 by done.
  - rewrite bool_decide_eq_false_2 by done. rewrite Hfree.
    destruct (move_entry_Some r a d n (ltac:(by rewrite Hka)) Hd Hp) as [x Hx].
    rewrite Hx. intros [= <-]. exists a. rewrite Hka. eauto.
Qed.

(** X18: when the new location is already a directory that is not the
    source, and the name of the source is free inside it, a [move_item]
    that returns has put the item inside that directory, under its own
    name, and nothing is left at the source; the path returned is the new
    location all the same. *)
Theorem move_item_into_existing_directory
    (w w' : world) (src dst_folder new_location : string) (r1 : node) :
  let win := windows w in
  let inside := os_path_join win new_location (shutil_basename win src) in
  move_item src dst_folder w = (Ok new_location, w') →
  os_makedirs win (fs w) dst_folder = Ok r1 →
  os_path_isdir win r1 new_location = true →
  samefile win r1 src new_location = false →
  vacant win r1 inside →
  ∃ a d n x,
    locate win r1 false src = Some a
    ∧ get r1 a = Some x
    ∧ slot win r1 inside = Some (d, n)
    ∧ get (fs w') (d ++ [n]) = Some x
    ∧ (∀ b, locate win (fs w') false inside = Some b → b = d ++ [n])
    ∧ os_path_lexists win (fs w') src = false.
Proof.
  cbv zeta. intros H Hm Hd Hsf (d & n & Hslot & Hfree).
  set (win := windows w) in *.
  pose proof (move_item_value _ _ _ _ _ H) as Hnl. fold win in Hnl.
  rewrite move_item_eq in H. cbv zeta in H. fold win in H.
  rewrite <- Hnl, Hm in H.
  destruct (shutil_move win r1 src new_location) as [r2|e] eqn:Es; [|done].
  injection H as <-.
  unfold shutil_move in Es. rewrite Hd, Hsf in Es. cbn [andb] in Es.
  set (inside := os_path_join win new_location (shutil_basename win src)) in *.
  assert (os_path_exists win r1 inside = false) as He.
  { apply lexists_false_exists. unfold os_path_lexists.
    by rewrite (os_lstat_slot _ _ _ _ _ Hslot), Hfree. }
  rewrite He in Es.
  destruct (finish_vacant _ _ _ _ _ _ _ _ Hslot Hfree Es) as (a & Ha & Hk & Hp & Hmv).
  destruct (move_entry_is_dir _ _ _ _ Hmv) as [es ->].
  change (fs (set_fs (set_fs w r1) (Dir es))) with (Dir es).
  destruct Hk as [k Hk]. unfold look in Hk.
  destruct (get r1 a) as [x|] eqn:Ex; [|done].
  exists a, d, n, x. repeat split; try done.
  - unfold move_entry in Hmv. rewrite Ex in Hmv. simpl in Hmv.
    destruct (del r1 a); [|done]. simpl in Hmv.
    pose proof (get_put_in _ _ _ _ [] Hmv) as E. by rewrite app_nil_r in E.
  - intros b. by apply (moved_dest_named win r1 a d n (Dir es) inside).
  - by apply (moved_source_gone win r1 a (d ++ [n]) (Dir es) src).
Qed.

Lemma move_item_into_existing_directory_witness :
  fst (move_item "/a/f" "/b" demo_occupied) = Ok "/b/f"
  ∧ get (fs (snd (move_item "/a/f" "/b" demo_occupied))) ["b"; "f"; "f"]
    = Some (File "x").
Proof.
  split; [vm_compute; reflexivity|].
  destruct (move_item_into_existing_directory demo_occupied
              (snd (move_item "/a/f" "/b" demo_occupied)) "/a/f" "/b" "/b/f"
              (fs demo_occupied))
    as (a & d & n & x & Ha & Hx & Hs & Hg & _).
  - vm_compute. reflexivity.
  - vm_compute. reflexivity.
  - vm_compute. reflexivity.
  - vm_compute. reflexivity.
  - exists ["b"; "f"], "f". split; vm_compute; reflexivity.
  - vm_compute in Ha. injection Ha as <-.
    vm_compute in Hx. injection Hx as <-.
    vm_compute in Hs. injection Hs as <- <-.
    exact Hg.
Defined.

(** ** After a step of the commit failed *)

Lemma tree_add_ui w e : tree (add_ui w e) = tree w.
Proof. done. Qed.









(* ================================================================== *)
(** * A commit that succeeds, and its revert *)








Lemma fs_add_ui w e : fs (add_ui w e) = fs w.
Proof. done. Qed.




